(** * NovelDownloader: a shallow embedding of [NovelDownloader.py]

    The development follows the source file top to bottom:

    - [PyStr]: Python [str] values as lists of Unicode code points, with the
      string methods the program calls ([strip], [startswith], [in],
      [replace], [join], [lower], [int], decimal printing with CPython's
      limit on the number of digits);
    - [Title]: [clean_chapter_title] and the two [re.sub] passes it makes;
    - [Bs4]: the parsed page as BeautifulSoup exposes it (tags, attributes,
      strings; [find], [find_all], [get_text], [decompose]);
    - [Extract]: [extract_chapter_title], [extract_main_content],
      [extract_next_page];
    - [Walker]: the [NovelDownloader] object, [process_page],
      [save_current_chapter], [download_novel] and [main], as a state and
      exception monad over the object, the output file and the console;
      the exceptions that the [try] block of [process_page] catches come
      from the request, from [extract_next_page] and from [urljoin];
    - [Sketch]: the walk over pages given by their extracted parts.

    Then come the notions the statements are written with ([TitleSpec],
    [ExtractSpec], [WalkerSpec], [RunSpec], [UrlSpec], [TitleSpec2]), the
    sample pages and webs ([Samples], [MoreSamples]), and the theorems
    ([StrFacts], [TitleFacts], [ExtractFacts], [WalkerFacts], [RunFacts],
    [UrlFacts], [TitleMore], [ExtractMore]). *)

From Stdlib Require Import String Ascii.
From Stdlib Require Import List NArith Arith Bool Lia.
From Stdlib Require DecimalN DecimalPos.
Import ListNotations.

Set Implicit Arguments.

(* ================================================================== *)
(** * Python strings *)
(* ================================================================== *)

Module PyStr.

(** A [str] is a sequence of code points; [len] is the number of code
    points.  *)
Definition str := list N.

(** ASCII literals. *)
Definition lit (s : string) : str :=
  map N_of_ascii (list_ascii_of_string s).

(** What a call that can raise comes to: it returns a value, or it raises
    an exception of class [Exception], given here by its message (what
    [str(e)] is in the handler of line 135). *)
Inductive result (A : Type) : Type :=
| Ok (a : A)
| Exn (message : str).
Arguments Ok {A} a.
Arguments Exn {A} message.

Fixpoint eqb (a b : str) : bool :=
  match a, b with
  | [], [] => true
  | x :: a', y :: b' => N.eqb x y && eqb a' b'
  | _, _ => false
  end.

Definition LF : N := 0x0A%N.

(** A string is true in a condition when it is not empty. *)
Definition truthy (s : str) : bool :=
  match s with [] => false | _ :: _ => true end.

(** [str.isspace] on one code point (Unicode 14, the same set that [\s]
    matches in a [str] pattern). *)
Definition is_space (c : N) : bool :=
  (((0x09 <=? c) && (c <=? 0x0D)) || ((0x1C <=? c) && (c <=? 0x20))
   || (c =? 0x85) || (c =? 0xA0) || (c =? 0x1680)
   || ((0x2000 <=? c) && (c <=? 0x200A))
   || (c =? 0x2028) || (c =? 0x2029) || (c =? 0x202F) || (c =? 0x205F)
   || (c =? 0x3000))%N.

Fixpoint lstrip (s : str) : str :=
  match s with
  | c :: r => if is_space c then lstrip r else s
  | [] => []
  end.

Definition rstrip (s : str) : str := rev (lstrip (rev s)).

(** [s.strip()] *)
Definition strip (s : str) : str := rstrip (lstrip s).

(** [s.startswith(p)] *)
Fixpoint startswith (p s : str) : bool :=
  match p, s with
  | [], _ => true
  | x :: p', y :: s' => N.eqb x y && startswith p' s'
  | _ :: _, [] => false
  end.

(** [p in s] *)
Fixpoint contains (p s : str) : bool :=
  startswith p s || match s with [] => false | _ :: r => contains p r end.

(** [s.replace(old, new)] for a non-empty [old]: every occurrence, left to
    right, without overlap.  [skip] counts the code points of an occurrence
    that are still to be dropped. *)
Fixpoint replace_from (old new : str) (skip : nat) (s : str) : str :=
  match s with
  | [] => []
  | c :: r =>
      match skip with
      | S k => replace_from old new k r
      | O =>
          if startswith old s
          then new ++ replace_from old new (length old - 1) r
          else c :: replace_from old new 0 r
      end
  end.

Definition replace (old new s : str) : str := replace_from old new 0 s.

(** [sep.join(parts)] *)
Fixpoint join (sep : str) (parts : list str) : str :=
  match parts with
  | [] => []
  | [p] => p
  | p :: r => p ++ sep ++ join sep r
  end.

(** The code points of value zero of the Unicode decimal digits (general
    category Nd, Unicode 14): each is followed by the digits one to nine.
    [\d] in a [str] pattern and [int] accept exactly these. *)
Definition decimal_zeros : list N :=
  [ 0x30; 0x660; 0x6F0; 0x7C0; 0x966; 0x9E6; 0xA66; 0xAE6; 0xB66; 0xBE6;
    0xC66; 0xCE6; 0xD66; 0xDE6; 0xE50; 0xED0; 0xF20; 0x1040; 0x1090;
    0x17E0; 0x1810; 0x1946; 0x19D0; 0x1A80; 0x1A90; 0x1B50; 0x1BB0;
    0x1C40; 0x1C50; 0xA620; 0xA8D0; 0xA900; 0xA9D0; 0xA9F0; 0xAA50;
    0xABF0; 0xFF10; 0x104A0; 0x10D30; 0x11066; 0x110F0; 0x11136; 0x111D0;
    0x112F0; 0x11450; 0x114D0; 0x11650; 0x116C0; 0x11730; 0x118E0;
    0x11950; 0x11C50; 0x11D50; 0x11DA0; 0x16A60; 0x16AC0; 0x16B50;
    0x1D7CE; 0x1D7D8; 0x1D7E2; 0x1D7EC; 0x1D7F6; 0x1E140; 0x1E2F0;
    0x1E950; 0x1FBF0 ]%N.

Definition decimal_value (c : N) : option N :=
  match find (fun z => (z <=? c) && (c <? z + 10))%N decimal_zeros with
  | Some z => Some (c - z)%N
  | None => None
  end.

Definition is_decimal (c : N) : bool :=
  match decimal_value c with Some _ => true | None => false end.

(** The number that a string of decimal digits stands for. *)
Definition number_of (s : str) : N :=
  fold_left
    (fun acc c => 10 * acc + match decimal_value c with Some d => d | None => 0 end)%N
    s 0%N.

Fixpoint uint_codes (u : Decimal.uint) : str :=
  match u with
  | Decimal.Nil => []
  | Decimal.D0 r => 0x30%N :: uint_codes r
  | Decimal.D1 r => 0x31%N :: uint_codes r
  | Decimal.D2 r => 0x32%N :: uint_codes r
  | Decimal.D3 r => 0x33%N :: uint_codes r
  | Decimal.D4 r => 0x34%N :: uint_codes r
  | Decimal.D5 r => 0x35%N :: uint_codes r
  | Decimal.D6 r => 0x36%N :: uint_codes r
  | Decimal.D7 r => 0x37%N :: uint_codes r
  | Decimal.D8 r => 0x38%N :: uint_codes r
  | Decimal.D9 r => 0x39%N :: uint_codes r
  end.

(** The decimal digits of a number, without leading zeros. *)
Definition digits_of (n : N) : str := uint_codes (N.to_uint n).

(** [sys.get_int_max_str_digits()] of CPython 3.11, which the program
    leaves at its default: CPython converts no string of more digits to an
    [int] and no [int] of more digits to a string, and raises [ValueError]
    instead. *)
Definition int_max_str_digits : nat := 4300.

(** [int(s)] on a string of decimal digits; the limit counts the digits as
    they are written, leading zeros too. *)
Definition int (s : str) : result N :=
  if int_max_str_digits <? length s
  then Exn (lit "Exceeds the limit (" ++ digits_of (N.of_nat int_max_str_digits)
            ++ lit " digits) for integer string conversion: value has "
            ++ digits_of (N.of_nat (length s))
            ++ lit " digits; use sys.set_int_max_str_digits() to increase the limit")
  else Ok (number_of s).

(** [str(n)], what an f-string prints for an [int]. *)
Definition format_int (n : N) : result str :=
  if int_max_str_digits <? length (digits_of n)
  then Exn (lit "Exceeds the limit (" ++ digits_of (N.of_nat int_max_str_digits)
            ++ lit " digits) for integer string conversion"
            ++ lit "; use sys.set_int_max_str_digits() to increase the limit")
  else Ok (digits_of n).

(** ASCII letters and their two cases. *)
Definition is_upper (c : N) : bool := (0x41 <=? c)%N && (c <=? 0x5A)%N.
Definition is_lower (c : N) : bool := (0x61 <=? c)%N && (c <=? 0x7A)%N.

(** [str.lower] code point by code point.  It is exact on ASCII and on the
    two other code points whose lower-case form holds an ASCII letter
    (U+0130 and the Kelvin sign U+212A); every other code point is left as
    it is, where Python maps it to code points outside ASCII, so a search
    for an ASCII word in the result sees the same thing. *)
Definition lower_char (c : N) : str :=
  if is_upper c then [c + 32]%N
  else if (c =? 0x130)%N then [0x69; 0x307]%N
  else if (c =? 0x212A)%N then [0x6B]%N
  else [c].

Definition lower (s : str) : str := flat_map lower_char s.

(** A literal pattern character under [re.IGNORECASE], for the letters the
    program's patterns use (none of i, k, s, which have further matches):
    a letter matches both of its cases, anything else itself. *)
Definition ci_eqb (p c : N) : bool :=
  if is_upper p then (c =? p)%N || (c =? p + 32)%N
  else if is_lower p then (c =? p)%N || (c =? p - 32)%N
  else (c =? p)%N.

Fixpoint ci_startswith (p s : str) : bool :=
  match p, s with
  | [], _ => true
  | x :: p', y :: s' => ci_eqb x y && ci_startswith p' s'
  | _ :: _, [] => false
  end.

(** [s.split()] as BeautifulSoup uses it for a multi-valued attribute: the
    maximal runs of non-space code points. *)
Fixpoint words_from (cur : str) (s : str) : list str :=
  match s with
  | [] => match cur with [] => [] | _ => [rev cur] end
  | c :: r =>
      if is_space c
      then match cur with [] => words_from [] r | _ => rev cur :: words_from [] r end
      else words_from (c :: cur) r
  end.

Definition words (s : str) : list str := words_from [] s.

End PyStr.

(* ================================================================== *)
(** * Title normalisation: [clean_chapter_title] *)
(* ================================================================== *)

Module Title.
Import PyStr.

(** [re.sub(pattern, "", s)] for a pattern that matches no empty string.
    [m s] is the length of the match that starts at the head of [s], if
    there is one; the scan goes left to right and resumes after each match
    ([skip] counts the code points of the current match still to drop). *)
Fixpoint sub_from (m : str -> option nat) (skip : nat) (s : str) : str :=
  match s with
  | [] => []
  | c :: r =>
      match skip with
      | S k => sub_from m k r
      | O =>
          match m s with
          | Some (S k) => sub_from m k r
          | _ => c :: sub_from m 0 r
          end
      end
  end.

Definition re_sub (m : str -> option nat) (s : str) : str := sub_from m 0 s.

(** The closing delimiter that goes with an opening one: [(] and [)],
    full-width [U+FF08] and [U+FF09], [U+3010] and [U+3011]. *)
Definition closer (c : N) : option N :=
  if (c =? 0x28)%N then Some 0x29%N
  else if (c =? 0xFF08)%N then Some 0xFF09%N
  else if (c =? 0x3010)%N then Some 0x3011%N
  else None.

(** [.*?] followed by the delimiter [close]: the code points up to and
    with the first [close], none of them a line feed ([.] matches no line
    feed).  The result is their number. *)
Fixpoint span_to (close : N) (s : str) : option nat :=
  match s with
  | [] => None
  | c :: r =>
      if (c =? close)%N then Some 1
      else if (c =? LF)%N then None
      else option_map S (span_to close r)
  end.

(** The pattern of line 22, [\(.*?\)|U+FF08.*?U+FF09|U+3010.*?U+3011],
    matched at the head of [s]. *)
Definition bracket_span (s : str) : option nat :=
  match s with
  | [] => None
  | c :: r =>
      match closer c with
      | Some close => option_map S (span_to close r)
      | None => None
      end
  end.

(** [-] or the em dash U+2014. *)
Definition is_dash (c : N) : bool := ((c =? 0x2D) || (c =? 0x2014))%N.
Definition is_ascii_digit (c : N) : bool := ((0x30 <=? c) && (c <=? 0x39))%N.
(** U+7B2C, the ordinal prefix. *)
Definition is_ordinal (c : N) : bool := (c =? 0x7B2C)%N.
(** U+9875 (page), U+7AE0 (chapter), U+7BC0 (section). *)
Definition is_unit (c : N) : bool :=
  ((c =? 0x9875) || (c =? 0x7AE0) || (c =? 0x7BC0))%N.

Fixpoint count_while (p : N -> bool) (s : str) : nat :=
  match s with
  | c :: r => if p c then S (count_while p r) else 0
  | [] => 0
  end.

Definition count_opt (p : N -> bool) (s : str) : nat :=
  match s with
  | c :: _ => if p c then 1 else 0
  | [] => 0
  end.

(** The pattern of line 24, a dash, [\s*], an optional U+7B2C, [[0-9]+]
    and an optional unit, matched at the head of [s].  The four classes are
    disjoint, so the greedy choice at each step is the only one that can
    succeed. *)
Definition page_marker (s : str) : option nat :=
  match s with
  | [] => None
  | c :: r =>
      if is_dash c then
        let n1 := count_while is_space r in
        let r1 := skipn n1 r in
        let n2 := count_opt is_ordinal r1 in
        let r2 := skipn n2 r1 in
        let n3 := count_while is_ascii_digit r2 in
        let r3 := skipn n3 r2 in
        match n3 with
        | O => None
        | S _ => Some (1 + n1 + n2 + n3 + count_opt is_unit r3)
        end
      else None
  end.

(** Lines 19-26. *)
Definition clean_chapter_title (title : str) : str :=
  let title := re_sub bracket_span title in
  let title := re_sub page_marker title in
  strip title.

End Title.

(* ================================================================== *)
(** * The parsed page *)
(* ================================================================== *)

Module Bs4.
Import PyStr.

(** The tree that [BeautifulSoup(text, "html.parser")] builds.  A string
    is [plain] when its class is [NavigableString] or [CData], the classes
    whose text [get_text] returns; comments, doctypes and the strings the
    parser files under [Script] or [Stylesheet] are not.  Attribute values
    are kept as written in the page; the value of [class] is cut into its
    whitespace-separated names where it is matched, as the parser stores
    it. *)
#[local] Unset Elimination Schemes.
Inductive node : Type :=
| NavigableString (plain : bool) (text : str)
| Tag (name : str) (attrs : list (str * str)) (contents : list node).
#[local] Set Elimination Schemes.

(** Induction over a page: a property of every child gives the property
    of the tag. *)
Definition node_rect' (P : node -> Prop)
  (HS : forall plain s, P (NavigableString plain s))
  (HT : forall nm a cs, Forall P cs -> P (Tag nm a cs))
  : forall n : node, P n :=
  fix rec (n : node) : P n :=
    match n with
    | NavigableString plain s => HS plain s
    | Tag nm a cs =>
        HT nm a cs
           ((fix all (l : list node) : Forall P l :=
               match l with
               | [] => Forall_nil P
               | c :: r => Forall_cons c (rec c) (all r)
               end) cs)
    end.

(** The [BeautifulSoup] object is itself a tag, named [[document]]. *)
Definition BeautifulSoup := node.

Definition document (contents : list node) : BeautifulSoup :=
  Tag (lit "[document]") [] contents.

Definition name_of (n : node) : option str :=
  match n with Tag nm _ _ => Some nm | NavigableString _ _ => None end.

(** [tag.get(key)] *)
Fixpoint get_attr (key : str) (attrs : list (str * str)) : option str :=
  match attrs with
  | [] => None
  | (k, v) :: r => if eqb k key then Some v else get_attr key r
  end.

Definition get (key : str) (n : node) : option str :=
  match n with Tag _ a _ => get_attr key a | NavigableString _ _ => None end.

(** What [find] hands back: the element, and the way to put a changed
    element back in its place in the tree it was found in (the program
    changes the element it found in place, and reads the tree again
    later). *)
Definition found : Type := (node * (node -> node))%type.

(** The first tag in document order, [n] included, that satisfies [p]. *)
Fixpoint find_from (p : node -> bool) (n : node) {struct n} : option found :=
  match n with
  | NavigableString _ _ => None
  | Tag nm a cs =>
      if p n then Some (n, fun x => x)
      else
        match
          (fix among (l : list node) : option (node * (node -> list node)) :=
             match l with
             | [] => None
             | c :: r =>
                 match find_from p c with
                 | Some (x, put) => Some (x, fun y => put y :: r)
                 | None =>
                     match among r with
                     | Some (x, put) => Some (x, fun y => c :: put y)
                     | None => None
                     end
                 end
             end) cs
        with
        | Some (x, put) => Some (x, fun y => Tag nm a (put y))
        | None => None
        end
  end.

Fixpoint find_among (p : node -> bool) (l : list node)
  : option (node * (node -> list node)) :=
  match l with
  | [] => None
  | c :: r =>
      match find_from p c with
      | Some (x, put) => Some (x, fun y => put y :: r)
      | None =>
          match find_among p r with
          | Some (x, put) => Some (x, fun y => c :: put y)
          | None => None
          end
      end
  end.

(** [tag.find(...)]: the first descendant of [root] that satisfies [p]. *)
Definition find (p : node -> bool) (root : node) : option found :=
  match root with
  | NavigableString _ _ => None
  | Tag nm a cs =>
      match find_among p cs with
      | Some (x, put) => Some (x, fun y => Tag nm a (put y))
      | None => None
      end
  end.

(** The strings below [n] that [get_text] reads, in document order. *)
Fixpoint strings (n : node) : list str :=
  match n with
  | NavigableString plain s => if plain then [s] else []
  | Tag _ _ cs => flat_map strings cs
  end.

(** [tag.get_text(sep, strip=True)]: every string is stripped, the empty
    ones are left out, the rest is joined by [sep]. *)
Definition get_text (sep : str) (n : node) : str :=
  join sep (filter truthy (map strip (strings n))).

(** [tag.string]: the only child when it is a string, else the only
    child's own [string]. *)
Fixpoint dot_string (n : node) : option str :=
  match n with
  | NavigableString _ s => Some s
  | Tag _ _ cs =>
      match cs with
      | [c] => dot_string c
      | _ => None
      end
  end.

Definition named_in (names : list str) (n : node) : bool :=
  match n with
  | Tag nm _ _ => existsb (eqb nm) names
  | NavigableString _ _ => false
  end.

(** [for elem in tag.find_all(names): elem.decompose()]: every descendant
    tag whose name is one of [names] leaves the tree, with all that is
    below it. *)
Fixpoint decompose_all (names : list str) (n : node) : node :=
  match n with
  | NavigableString _ _ => n
  | Tag nm a cs =>
      Tag nm a
        (filter (fun c => negb (named_in names c))
                (map (decompose_all names) cs))
  end.

(** The ways the program asks for an attribute: a string to be equal to,
    or a compiled alternation of plain words to be found somewhere in the
    value ([pattern.search]). *)
Inductive matcher : Type :=
| Exact (v : str)
| Search (alternatives : list str).

Definition match_value (m : matcher) (v : str) : bool :=
  match m with
  | Exact s => eqb v s
  | Search alts => existsb (fun a => contains a v) alts
  end.

(** One entry of [selectors]: the keyword arguments of a [find] call. *)
Record selector : Type := {
  sel_name : str;
  sel_id : option matcher;
  sel_class : option matcher
}.

Definition match_id (m : option matcher) (n : node) : bool :=
  match m with
  | None => true
  | Some m =>
      match get (lit "id") n with
      | Some v => match_value m v
      | None => false
      end
  end.

(** [class] is multi-valued: one of its names has to match, or the names
    joined by single spaces. *)
Definition match_class (m : option matcher) (n : node) : bool :=
  match m with
  | None => true
  | Some m =>
      match get (lit "class") n with
      | Some v =>
          let names := words v in
          existsb (match_value m) names || match_value m (join (lit " ") names)
      | None => false
      end
  end.

Definition tag_matches (sel : selector) (n : node) : bool :=
  match name_of n with
  | Some nm => eqb nm (sel_name sel) && match_id (sel_id sel) n && match_class (sel_class sel) n
  | None => false
  end.

End Bs4.

(* ================================================================== *)
(** * The three extractors *)
(* ================================================================== *)

Module Extract.
Import PyStr Bs4.

Definition by_name (nm : string) : selector :=
  {| sel_name := lit nm; sel_id := None; sel_class := None |}.

(** The sentinel of line 43 (U+672A U+547D U+540D U+7AE0 U+8282). *)
Definition UNTITLED : str := [0x672A; 0x547D; 0x540D; 0x7AE0; 0x8282]%N.

(** [re.split(r"[-|_|U+2014]", title)[0]]: what stands before the first
    separator. *)
Definition is_separator (c : N) : bool :=
  ((c =? 0x2D) || (c =? 0x7C) || (c =? 0x5F) || (c =? 0x2014))%N.

Fixpoint first_segment (s : str) : str :=
  match s with
  | [] => []
  | c :: r => if is_separator c then [] else c :: first_segment r
  end.

(** Lines 28-43. *)
Definition extract_chapter_title (soup : BeautifulSoup) : str :=
  let from_title :=
    match find (tag_matches (by_name "title")) soup with
    | Some (t, _) =>
        let title := get_text [] t in
        let title := strip (first_segment title) in
        Title.clean_chapter_title title
    | None => UNTITLED
    end in
  match find (tag_matches (by_name "h1")) soup with
  | Some (h1, _) =>
      if truthy (get_text [] h1)
      then Title.clean_chapter_title (get_text [] h1)
      else from_title
  | None => from_title
  end.

(** Lines 48-56. *)
Definition selectors : list selector :=
  [ {| sel_name := lit "div"; sel_id := Some (Exact (lit "content")); sel_class := None |};
    {| sel_name := lit "div"; sel_id := None; sel_class := Some (Exact (lit "content")) |};
    {| sel_name := lit "div"; sel_id := Some (Exact (lit "chapter-content")); sel_class := None |};
    {| sel_name := lit "div"; sel_id := None; sel_class := Some (Exact (lit "chapter-content")) |};
    by_name "article";
    {| sel_name := lit "div"; sel_id := None;
       sel_class := Some (Search [lit "read"; lit "text"; lit "article"]) |};
    {| sel_name := lit "div";
       sel_id := Some (Search [lit "content"; lit "chapter"]); sel_class := None |} ].

(** The names handed to [find_all] on line 62.  [find_all] compares each
    with the name of a tag. *)
Definition unwanted : list str :=
  [lit "script"; lit "style"; lit "div.ad"; lit "ins"; lit "iframe"].

(** The loop of lines 58-64 over the selectors still to try.  The result
    comes with the tree as the call leaves it: the chosen element has lost
    its unwanted descendants in the page itself. *)
Fixpoint first_content (sels : list selector) (soup : BeautifulSoup) : option str * BeautifulSoup :=
  match sels with
  | [] => (None, soup)
  | sel :: rest =>
      match find (tag_matches sel) soup with
      | Some (content, put) =>
          if 100 <? length (get_text [] content)
          then
            let content := decompose_all unwanted content in
            (Some (get_text [LF] content), put content)
          else first_content rest soup
      | None => first_content rest soup
      end
  end.

(** Lines 45-66. *)
Definition extract_main_content (soup : BeautifulSoup) : option str * BeautifulSoup :=
  first_content selectors soup.

(** Line 71. *)
Definition next_keywords : list str :=
  [ [0x4E0B; 0x4E00; 0x9875]%N; [0x4E0B; 0x4E00; 0x7AE0]%N;
    [0x4E0B; 0x4E00; 0x8282]%N; [0x4E0B; 0x4E00; 0x9801]%N;
    lit "Next"; lit ">"; [0x203A]%N ].

(** [re.compile("^keyword$", re.IGNORECASE).search(s)]: [s] is the keyword
    in any case, with at most one line feed after it. *)
Definition keyword_matches (keyword s : str) : bool :=
  ci_startswith keyword s
  && match skipn (length keyword) s with
     | [] => true
     | [c] => (c =? LF)%N
     | _ => false
     end.

(** [soup.find("a", string=pattern)] looks at the [string] of each [a]. *)
Definition anchor_with_text (keyword : str) (n : node) : bool :=
  tag_matches (by_name "a") n
  && match dot_string n with
     | Some s => keyword_matches keyword s
     | None => false
     end.

Definition anchor_with_class (class_name : str) : node -> bool :=
  tag_matches {| sel_name := lit "a"; sel_id := None;
                 sel_class := Some (Exact class_name) |}.

(** One round of the loops at lines 72-75 and 78-81: the [href] of the
    first anchor found, when it has one that is not empty. *)
Definition href_of_first (p : node -> bool) (soup : BeautifulSoup) : option str :=
  match find p soup with
  | Some (next_link, _) =>
      match get (lit "href") next_link with
      | Some href => if truthy href then Some href else None
      | None => None
      end
  | None => None
  end.

Fixpoint first_href (ps : list (node -> bool)) (soup : BeautifulSoup) : option str :=
  match ps with
  | [] => None
  | p :: rest =>
      match href_of_first p soup with
      | Some href => Some href
      | None => first_href rest soup
      end
  end.

Fixpoint take_while (p : N -> bool) (s : str) : str :=
  match s with
  | c :: r => if p c then c :: take_while p r else []
  | [] => []
  end.

(** [(page|p)=(\d+)] under [re.IGNORECASE] at the head of [s]: the two
    groups. *)
Definition page_param_at (s : str) : option (str * str) :=
  let with_key (n : nat) :=
    match take_while is_decimal (skipn (S n) s) with
    | [] => None
    | digits => Some (firstn n s, digits)
    end in
  if ci_startswith (lit "page=") s then with_key 4
  else if ci_startswith (lit "p=") s then with_key 1
  else None.

(** [re.search]: the leftmost position with a match. *)
Fixpoint search_page_param (s : str) : option (str * str) :=
  match page_param_at s with
  | Some groups => Some groups
  | None =>
      match s with
      | [] => None
      | _ :: r => search_page_param r
      end
  end.

(** Lines 84-91.  [int] on line 87 and the second f-string on line 90
    raise where the number has too many digits. *)
Definition next_by_url (current_url : str) : result (option str) :=
  if contains (lit "page") (lower current_url) then
    match search_page_param current_url with
    | Some (g1, g2) =>
        match int g2 with
        | Ok n =>
            let next_num := (n + 1)%N in
            match format_int next_num with
            | Ok printed =>
                Ok (Some (replace (g1 ++ lit "=" ++ g2)
                                  (g1 ++ lit "=" ++ printed) current_url))
            | Exn e => Exn e
            end
        | Exn e => Exn e
        end
    | None => Ok None
    end
  else Ok None.

Definition next_classes : list str :=
  [lit "next"; lit "next-page"; lit "pagination-next"].

(** Lines 68-93. *)
Definition extract_next_page (soup : BeautifulSoup) (current_url : str)
  : result (option str) :=
  match first_href (map anchor_with_text next_keywords) soup with
  | Some href => Ok (Some href)
  | None =>
      match first_href (map anchor_with_class next_classes) soup with
      | Some href => Ok (Some href)
      | None => next_by_url current_url
      end
  end.

End Extract.

(* ================================================================== *)
(** * The downloader object and the walk *)
(* ================================================================== *)

Module Walker.
Import PyStr.

(** The values that the loop variable [current_url] of [download_novel]
    and the parameter [url] of [process_page] take: [process_page] returns
    [True], [False], [None] or a string. *)
Inductive pyval : Type :=
| PyNone
| PyBool (b : bool)
| PyStr (s : str).

Definition pyval_eqb (a b : pyval) : bool :=
  match a, b with
  | PyNone, PyNone => true
  | PyBool x, PyBool y => Bool.eqb x y
  | PyStr x, PyStr y => eqb x y
  | _, _ => false
  end.

(** The truth value of a [pyval] in [while current_url]. *)
Definition is_true (v : pyval) : bool :=
  match v with
  | PyNone => false
  | PyBool b => b
  | PyStr s => truthy s
  end.

(** [str(v)], as an f-string prints it. *)
Definition show (v : pyval) : str :=
  match v with
  | PyNone => lit "None"
  | PyBool true => lit "True"
  | PyBool false => lit "False"
  | PyStr s => s
  end.

(** What [self.session.get(url, timeout=10)], after [time.sleep(1)], does
    for a URL: it returns a response, of any status code (the program never
    looks at the code and never calls [raise_for_status]), whose text parses
    to [page]; or it raises an exception of class [Exception] with message
    [e] (no connection, time-out, ...); or the user's interrupt arrives
    while the program waits there, and [KeyboardInterrupt] is raised. *)
Inductive reply (soup : Type) : Type :=
| Response (status : N) (page : soup)
| Raises (e : str)
| Interrupted.
Arguments Raises {soup} e.
Arguments Interrupted {soup}.

(** The lines the program prints. *)
Inductive line : Type :=
| NoContent (url : pyval)            (* line 115 *)
| Failed (url : pyval) (e : str)     (* line 136 *)
| Saved (title : str)                (* line 150 *)
| Finished (chapter_count : nat)     (* line 164 *)
| Starting (url : str)               (* lines 200-201 *)
| UserInterrupt                      (* line 210: "saving what was downloaded" *)
| Elapsed.                           (* line 214 *)

(** The fields of a [NovelDownloader] (lines 14-17); [visited_urls] is a
    set, kept as the list of its members, newest first. *)
Record NovelDownloader : Type := {
  visited_urls : list pyval;
  current_chapter : option str;
  chapter_content : list str;
  chapter_count : nat
}.

Definition init : NovelDownloader :=
  {| visited_urls := []; current_chapter := None;
     chapter_content := []; chapter_count := 0 |}.

(** What a run can change: the object, the text of the output file, the
    console, and the requests made (the arguments of [session.get], oldest
    first). *)
Record machine : Type := {
  self : NovelDownloader;
  disk : str;
  console : list line;
  requests : list pyval
}.

(** A call returns, or is left by a [KeyboardInterrupt]; [OutOfFuel] is the
    model's own, for a loop cut short by its bound. *)
Inductive outcome (A : Type) : Type :=
| Done (a : A)
| KeyboardInterrupt
| OutOfFuel.
Arguments KeyboardInterrupt {A}.
Arguments OutOfFuel {A}.

Definition M (A : Type) : Type := machine -> outcome A * machine.

Definition ret {A} (a : A) : M A := fun m => (Done a, m).

Definition bind {A B} (c : M A) (k : A -> M B) : M B :=
  fun m =>
    match c m with
    | (Done a, m') => k a m'
    | (KeyboardInterrupt, m') => (KeyboardInterrupt, m')
    | (OutOfFuel, m') => (OutOfFuel, m')
    end.

Notation "x <- c ;; k" := (bind c (fun x => k))
  (at level 61, c at next level, right associativity).
Notation "c ;; k" := (bind c (fun _ => k))
  (at level 61, right associativity).

Definition get_self : M NovelDownloader := fun m => (Done (self m), m).

Definition put_self (nd : NovelDownloader) : M unit :=
  fun m => (Done tt, {| self := nd; disk := disk m;
                        console := console m; requests := requests m |}).

Definition print (l : line) : M unit :=
  fun m => (Done tt, {| self := self m; disk := disk m;
                        console := console m ++ [l]; requests := requests m |}).

(** [open(output_file, "w")] followed by [f.write("")]. *)
Definition truncate : M unit :=
  fun m => (Done tt, {| self := self m; disk := [];
                        console := console m; requests := requests m |}).

(** [f.write(s)] on the file opened with mode ["a"].  The file can always
    be opened and written: an I/O error is not in this model. *)
Definition append (s : str) : M unit :=
  fun m => (Done tt, {| self := self m; disk := disk m ++ s;
                        console := console m; requests := requests m |}).

Definition requested (url : pyval) : M unit :=
  fun m => (Done tt, {| self := self m; disk := disk m;
                        console := console m; requests := requests m ++ [url] |}).

Definition raise_interrupt {A} : M A := fun m => (KeyboardInterrupt, m).
Definition out_of_fuel {A} : M A := fun m => (OutOfFuel, m).

(** [try: c except KeyboardInterrupt: h] *)
Definition except_interrupt (c h : M unit) : M unit :=
  fun m =>
    match c m with
    | (KeyboardInterrupt, m') => h m'
    | r => r
    end.

(** Lines 139-150. *)
Definition save_current_chapter : M unit :=
  nd <- get_self ;;
  match current_chapter nd, chapter_content nd with
  | Some title, _ :: _ =>
      if truthy title then
        append (title ++ [LF]) ;;
        append (concat (chapter_content nd) ++ [LF]) ;;
        print (Saved title)
      else ret tt
  | _, _ => ret tt
  end.

Definition member (v : pyval) (s : list pyval) : bool :=
  existsb (pyval_eqb v) s.

Definition is_absolute (u : str) : bool :=
  startswith (lit "http://") u || startswith (lit "https://") u.

Section Site.

(** The page type and the three extractors, the URL resolution of
    [urllib.parse], and the web: what a request for a URL brings.
    [extract_main_content] hands back the page as well, because it changes
    it (it takes elements out) and [extract_next_page] reads it later.
    [extract_next_page] and [urljoin] can raise: the first on a page number
    of too many digits, the second on a link that is no URL (the link
    [//[] is refused with [ValueError("Invalid IPv6 URL")]).  The other two
    extractors only search the parsed page and work on strings, and raise
    nothing. *)
Context {soup : Type}.
Variable extract_chapter_title : soup -> str.
Variable extract_main_content : soup -> option str * soup.
Variable extract_next_page : soup -> str -> result (option str).
Variable urljoin : str -> str -> result str.
Variable web : str -> reply soup.

(** [self.session.get(url, timeout=10)].  A [url] that is no string is
    turned into one by [requests] and refused for its missing scheme. *)
Definition session_get (url : pyval) : reply soup :=
  match url with
  | PyStr u => web u
  | _ => Raises (lit "Invalid URL '" ++ show url
                 ++ lit "': No scheme supplied. Perhaps you meant https://"
                 ++ show url ++ lit "?")
  end.

(** [chapter_title != self.current_chapter] (line 119); no string equals
    [None]. *)
Definition differs (chapter_title : str) (current : option str) : bool :=
  match current with
  | Some c => negb (eqb chapter_title c)
  | None => true
  end.

(** The handler of lines 135-137, for an exception raised in the [try]
    block of [process_page]. *)
Definition failed (url : pyval) (e : str) : M pyval :=
  print (Failed url e) ;; ret (PyBool false).

(** Lines 118-133, once the page has its content.  They stand in the [try]
    block: where line 129 or line 131 raises, the chapter has been opened
    and the content appended, and the handler takes over. *)
Definition accept_page (url : pyval) (chapter_title content : str) (page : soup)
  : M pyval :=
  nd <- get_self ;;
  (if differs chapter_title (current_chapter nd) then
     save_current_chapter ;;
     put_self {| visited_urls := visited_urls nd;
                 current_chapter := Some chapter_title;
                 chapter_content := [];
                 chapter_count := chapter_count nd + 1 |}
   else ret tt) ;;
  nd <- get_self ;;
  put_self {| visited_urls := visited_urls nd;
              current_chapter := current_chapter nd;
              chapter_content := chapter_content nd ++ [content];
              chapter_count := chapter_count nd |} ;;
  match extract_next_page page (show url) with
  | Exn e => failed url e
  | Ok None => ret PyNone
  | Ok (Some next_page) =>
      if truthy next_page && negb (is_absolute next_page)
      then match urljoin (show url) next_page with
           | Ok joined => ret (PyStr joined)
           | Exn e => failed url e
           end
      else ret (PyStr next_page)
  end.

(** Lines 95-137.  Only a string is answered by a response, so in that
    branch [show url] is [url] itself. *)
Definition process_page (url : pyval) : M pyval :=
  nd <- get_self ;;
  if member url (visited_urls nd) then ret (PyBool true)
  else
    put_self {| visited_urls := url :: visited_urls nd;
                current_chapter := current_chapter nd;
                chapter_content := chapter_content nd;
                chapter_count := chapter_count nd |} ;;
    requested url ;;
    match session_get url with
    | Interrupted => raise_interrupt
    | Raises e => failed url e
    | Response _ page =>
        let chapter_title := extract_chapter_title page in
        let (content, page) := extract_main_content page in
        match content with
        | Some (c :: text) =>
            accept_page url chapter_title (c :: text) page
        | _ => print (NoContent url) ;; ret (PyBool false)
        end
    end.

(** The loop of lines 158-160, for at most [fuel] rounds. *)
Fixpoint walk (fuel : nat) (current_url : pyval) : M unit :=
  if is_true current_url then
    match fuel with
    | O => out_of_fuel
    | S fuel => next <- process_page current_url ;; walk fuel next
    end
  else ret tt.

(** Lines 152-164. *)
Definition download_novel (fuel : nat) (start_url : str) : M unit :=
  truncate ;;
  walk fuel (PyStr start_url) ;;
  save_current_chapter ;;
  nd <- get_self ;;
  print (Finished (chapter_count nd)).

(** Lines 194-214, with the start URL that the command line gave.  The
    exceptions of this model are raised inside the [try] block of
    [process_page] and caught there, so the second handler (line 211) has
    nothing to catch. *)
Definition main (fuel : nat) (url : str) : M unit :=
  print (Starting url) ;;
  except_interrupt
    (put_self init ;; download_novel fuel url)
    (print UserInterrupt) ;;
  print Elapsed.

End Site.

(** The program as it is: the walk over BeautifulSoup pages with the
    extractors of the source. *)
Definition run (urljoin : str -> str -> result str)
  (web : str -> reply Bs4.BeautifulSoup)
  : nat -> str -> M unit :=
  main Extract.extract_chapter_title Extract.extract_main_content
       Extract.extract_next_page urljoin web.

(** A machine before the program starts: no object yet (its fields are
    set by line 204), a console with nothing on it, and an output file
    that may hold [old] text from an earlier run. *)
Definition boot (old : str) : machine :=
  {| self := init; disk := old; console := []; requests := [] |}.

End Walker.

(* ================================================================== *)
(** * Pages seen through their extracted parts *)
(* ================================================================== *)

(** The walk looks at a page only through the three extractors.  A
    [Sketch.page] is a page given by what they return on it: its title,
    its content if any, and the next link if any. *)
Module Sketch.
Import PyStr Walker.

Record page : Type := {
  title : str;
  content : option str;
  next : option str
}.

Definition download_novel (urljoin : str -> str -> result str)
  (web : str -> reply page) : nat -> str -> M unit :=
  Walker.download_novel title (fun p => (content p, p)) (fun p _ => Ok (next p))
                        urljoin web.

Definition main (urljoin : str -> str -> result str) (web : str -> reply page)
  : nat -> str -> M unit :=
  Walker.main title (fun p => (content p, p)) (fun p _ => Ok (next p))
              urljoin web.

(** A web given by the list of its pages; a request for any other URL
    finds no server. *)
Fixpoint serve {soup} (pages : list (str * reply soup)) (url : str) : reply soup :=
  match pages with
  | [] => Raises (lit "connection refused")
  | (u, r) :: rest => if eqb u url then r else serve rest url
  end.

(** Where no link is relative, [urljoin] is never called; this one leaves
    the link as it is. *)
Definition no_join (base link : str) : result str := Ok link.

(** [urljoin] on the one relative link of the sample webs, [//[]: what
    follows the two slashes is read as a host, and an opening bracket
    without its closing one is refused. *)
Definition join_host (base link : str) : result str :=
  if eqb link (lit "//[") then Exn (lit "Invalid IPv6 URL") else Ok link.

End Sketch.

(* ================================================================== *)
(** * Notions the statements are written with *)
(* ================================================================== *)

Module TitleSpec.
Import PyStr Title.

(** [free m s]: the pattern matches at no position of [s]. *)
Fixpoint free (m : str -> option nat) (s : str) : Prop :=
  match s with
  | [] => True
  | _ :: r => m s = None /\ free m r
  end.

(** No dash in [s], neither [-] nor the em dash. *)
Definition dashless (s : str) : Prop := Forall (fun c => is_dash c = false) s.

Definition no_lf (s : str) : Prop := Forall (fun c => (c =? LF)%N = false) s.

End TitleSpec.

Module ExtractSpec.
Import PyStr Bs4 Extract.

(** The raw text that the extractor goes by: that of the first [h1] when it
    is not empty, else the first segment of the text of [title]; none when
    the page has neither. *)
Definition raw_title (soup : BeautifulSoup) : option str :=
  let from_title :=
    option_map (fun f : found => strip (first_segment (get_text [] (fst f))))
               (find (tag_matches (by_name "title")) soup) in
  match find (tag_matches (by_name "h1")) soup with
  | Some (h1, _) =>
      if truthy (get_text [] h1) then Some (get_text [] h1) else from_title
  | None => from_title
  end.

(** The element that [soup.find] returns for a selector. *)
Definition first_match (sel : selector) (soup : BeautifulSoup) : option node :=
  option_map fst (find (tag_matches sel) soup).

(** The first match of [sel], if any, has at most 100 code points of
    text. *)
Definition falls_short (soup : BeautifulSoup) (sel : selector) : Prop :=
  match first_match sel soup with
  | Some root => length (get_text [] root) <= 100
  | None => True
  end.

(** The strings below [n] that are below no tag named in [names]. *)
Fixpoint strings_outside (names : list str) (n : node) : list str :=
  match n with
  | NavigableString plain s => if plain then [s] else []
  | Tag _ _ cs =>
      flat_map (fun c => if named_in names c then [] else strings_outside names c) cs
  end.

End ExtractSpec.

Module WalkerSpec.
Import PyStr Walker.

(** What the sink writes for a chapter: the title on a line, the fragments
    one after the other, a line feed. *)
Definition block (title : str) (fragments : list str) : str :=
  title ++ [LF] ++ concat fragments ++ [LF].

(** The sink has nothing to write: no chapter is open, or the open one has
    the empty title, or it has no fragment. *)
Definition idle (nd : NovelDownloader) : bool :=
  match current_chapter nd, chapter_content nd with
  | Some title, _ :: _ => negb (truthy title)
  | _, _ => true
  end.

Definition flushed (nd : NovelDownloader) : str :=
  if idle nd then []
  else match current_chapter nd with
       | Some title => block title (chapter_content nd)
       | None => []
       end.

(** Chapters out of pages: pages that follow each other under one title
    make one chapter, with their contents in the order of the pages. *)
Definition chapter : Type := (str * list str)%type.

Definition merge (title : str) (fragments : list str) (rest : list chapter)
  : list chapter :=
  match rest with
  | (t, fs) :: more =>
      if eqb title t then (title, fragments ++ fs) :: more
      else (title, fragments) :: rest
  | [] => [(title, fragments)]
  end.

Fixpoint group (pages : list (str * str)) : list chapter :=
  match pages with
  | [] => []
  | (t, c) :: rest => merge t [c] (group rest)
  end.

Definition render (chapters : list chapter) : str :=
  flat_map (fun ch => block (fst ch) (snd ch)) chapters.

(** The chapters still to be written when [pages] are yet to come. *)
Definition pending (nd : NovelDownloader) (pages : list (str * str))
  : list chapter :=
  match current_chapter nd with
  | Some t => merge t (chapter_content nd) (group pages)
  | None => group pages
  end.

(** The chapters that the sink writes: those whose title is not empty. *)
Definition titled (chapters : list chapter) : list chapter :=
  filter (fun ch => truthy (fst ch)) chapters.

(** An open chapter has a fragment. *)
Definition well_opened (nd : NovelDownloader) : Prop :=
  match current_chapter nd with
  | Some _ => chapter_content nd <> []
  | None => True
  end.

Section Chain.

Context {soup : Type}.
Variable extract_chapter_title : soup -> str.
Variable extract_main_content : soup -> option str * soup.
Variable extract_next_page : soup -> str -> result (option str).
Variable urljoin : str -> str -> result str.
Variable web : str -> reply soup.

(** The content of a page, when the walk takes it as one. *)
Definition content_of (page : soup) : option str :=
  match fst (extract_main_content page) with
  | Some (c :: text) => Some (c :: text)
  | _ => None
  end.

(** The next link of a page at [url], resolved; finding it or resolving
    it can raise. *)
Definition link_of (url : str) (page : soup) : result pyval :=
  match extract_next_page (snd (extract_main_content page)) url with
  | Exn e => Exn e
  | Ok None => Ok PyNone
  | Ok (Some next_page) =>
      if truthy next_page && negb (is_absolute next_page)
      then match urljoin url next_page with
           | Ok joined => Ok (PyStr joined)
           | Exn e => Exn e
           end
      else Ok (PyStr next_page)
  end.

(** The next target that a page with content gives to the loop: its link,
    or [False] where the link raises (line 137). *)
Definition target_of (url : str) (page : soup) : pyval :=
  match link_of url page with
  | Ok v => v
  | Exn _ => PyBool false
  end.

(** The walk comes to its end at target [v]: there is no target ([None],
    the empty string, or [False] after a link that raised), or it was
    visited before, or the request fails, or the page has no content. *)
Inductive halts (visited : list pyval) : pyval -> Prop :=
| halts_no_target v :
    is_true v = false -> halts visited v
| halts_visited u :
    truthy u = true -> member (PyStr u) visited = true ->
    halts visited (PyStr u)
| halts_raises u e :
    truthy u = true -> member (PyStr u) visited = false ->
    web u = Raises e -> halts visited (PyStr u)
| halts_no_content u status page :
    truthy u = true -> member (PyStr u) visited = false ->
    web u = Response status page -> content_of page = None ->
    halts visited (PyStr u).

(** [chain visited v pages]: from target [v], with [visited] behind it, the
    walk goes over [pages], given by title and content, and then comes to
    its end.  A page whose link raises is the last one: its target is
    [False]. *)
Inductive chain (visited : list pyval) : pyval -> list (str * str) -> Prop :=
| chain_end v :
    halts visited v -> chain visited v []
| chain_page u status page c pages :
    truthy u = true -> member (PyStr u) visited = false ->
    web u = Response status page -> content_of page = Some c ->
    chain (PyStr u :: visited) (target_of u page) pages ->
    chain visited (PyStr u) ((extract_chapter_title page, c) :: pages).

End Chain.

End WalkerSpec.

(* ================================================================== *)
(** * Sample pages *)
(* ================================================================== *)

Module Samples.
Import PyStr Bs4 Walker.

#[local] Open Scope string_scope.

Definition text (s : string) : node := NavigableString true (lit s).

Definition element (nm : string) (attrs : list (string * string))
  (contents : list node) : node :=
  Tag (lit nm) (map (fun kv => (lit (fst kv), lit (snd kv))) attrs) contents.

(** [n] times the letter x: a paragraph of that length. *)
Definition filler (n : nat) : node := NavigableString true (repeat 0x78%N n).

(** A page whose heading is nothing but a page count, under a proper
    document title. *)
Definition page_count_heading : BeautifulSoup :=
  document
    [element "html" []
       [element "head" [] [element "title" [] [text "Chapter 1 - Site"]];
        element "body" [] [element "h1" [] [text "(1/3)"]]]].

(** A content block of exactly 100 code points. *)
Definition block_of_100 : node :=
  element "div" [("id", "content")] [filler 100].

Definition page_of_100 : BeautifulSoup := document [block_of_100].

(** A content block that is an inserted advertisement of 200 code points
    and two letters of text. *)
Definition page_mostly_ad : BeautifulSoup :=
  document
    [element "div" [("id", "content")]
       [element "ins" [] [filler 200]; text "hi"]].

(** A content block with a [div] of class [ad] in it. *)
Definition page_with_ad_div : BeautifulSoup :=
  document
    [element "div" [("id", "content")]
       [element "div" [("class", "ad")] [text "BUY NOW"]; filler 101]].

(** The same with the advertisement in an [ins] and a script beside it. *)
Definition page_with_ins : BeautifulSoup :=
  document
    [element "div" [("id", "content")]
       [element "ins" [] [text "BUY NOW"];
        element "script" [] [text "track()"]; filler 101]].

(** Two elements that qualify as content: an [article] of 150 code
    points, and behind it a [div] of class [content] of 101. *)
Definition page_two_roots : BeautifulSoup :=
  document
    [element "article" [] [filler 150];
     element "div" [("class", "content")] [filler 101]].

(** Two anchors: the first has the class [next], the second the text of
    the first keyword (U+4E0B U+4E00 U+9875). *)
Definition page_two_links : BeautifulSoup :=
  document
    [element "a" [("class", "next"); ("href", "/by-class")] [text "more"];
     element "a" [("href", "/by-text")]
       [NavigableString true [0x4E0B; 0x4E00; 0x9875]%N]].

(** Lines of text, each with its line feed. *)
Definition lines (ls : list string) : str :=
  flat_map (fun l => (lit l ++ [LF])%list) ls.

Definition next_link (href : string) : node :=
  element "a" [("href", href)] [text "Next"].

(** A page with a heading, a content block of [n] code points and what
    follows it. *)
Definition chapter_page (heading : string) (n : nat) (more : list node)
  : BeautifulSoup :=
  document
    (element "h1" [] [text heading]
     :: element "div" [("id", "content")] [filler n] :: more).

Definition url1 : str := lit "http://novel/1".
Definition url2 : str := lit "http://novel/2".
Definition url3 : str := lit "http://novel/3".

(** One page whose next link leads back to itself. *)
Definition web_cycle : str -> reply BeautifulSoup :=
  Sketch.serve
    [(url1, Response 200 (chapter_page "Chapter 1" 101 [next_link "http://novel/1"]))].

(** The user's interrupt arrives during the second request. *)
Definition web_interrupted : str -> reply BeautifulSoup :=
  Sketch.serve
    [(url1, Response 200 (chapter_page "Chapter 1" 101 [next_link "http://novel/2"]));
     (url2, Interrupted)].

(** The second page is gone: the server answers 404 with an error page. *)
Definition web_404 : str -> reply BeautifulSoup :=
  Sketch.serve
    [(url1, Response 200 (chapter_page "Chapter 1" 101 [next_link "http://novel/2"]));
     (url2, Response 404 (chapter_page "Not Found" 102 []))].

(** The heading of the first page is nothing but a page count. *)
Definition web_page_count : str -> reply BeautifulSoup :=
  Sketch.serve
    [(url1, Response 200 (chapter_page "(1/3)" 101 [next_link "http://novel/2"]));
     (url2, Response 200 (chapter_page "Chapter 2" 102 []))].

(** The next link of the second page is no URL: two slashes and an
    opening bracket. *)
Definition web_bad_link : str -> reply BeautifulSoup :=
  Sketch.serve
    [(url1, Response 200 (chapter_page "Chapter 1" 101 [next_link "http://novel/2"]));
     (url2, Response 200 (chapter_page "Chapter 2" 102 [next_link "//["]))].

(** The walk of the specification's last example. *)
Definition three_pages : str -> reply Sketch.page :=
  Sketch.serve
    [(url1, Response 200 {| Sketch.title := lit "Chapter 1";
                            Sketch.content := Some (lit "AAA");
                            Sketch.next := Some url2 |});
     (url2, Response 200 {| Sketch.title := lit "Chapter 1";
                            Sketch.content := Some (lit "BBB");
                            Sketch.next := Some url3 |});
     (url3, Response 200 {| Sketch.title := lit "Chapter 2";
                            Sketch.content := Some (lit "CCC");
                            Sketch.next := None |})].

(** A downloader with a chapter open. *)
Definition open_chapter : machine :=
  {| self := {| visited_urls := [PyStr url1];
                current_chapter := Some (lit "Chapter 1");
                chapter_content := [lit "AAA"];
                chapter_count := 1 |};
     disk := []; console := []; requests := [PyStr url1] |}.

End Samples.

(* ================================================================== *)
(** * Notions for whole runs *)
(* ================================================================== *)

Module RunSpec.
Import PyStr Walker.

(** [m'] continues [m]: the file has only been appended to, the requests
    made and the targets visited have only been added to. *)
Definition grows (m m' : machine) : Prop :=
  (exists written, disk m' = disk m ++ written)
  /\ (exists asked, requests m' = requests m ++ asked)
  /\ (exists seen, visited_urls (self m') = seen ++ visited_urls (self m)).

(** No target was requested twice, and every target requested is in
    [visited_urls]. *)
Definition asked_once (m : machine) : Prop :=
  NoDup (requests m)
  /\ forall r, In r (requests m) -> member r (visited_urls (self m)) = true.

(** The pages of a served web whose URL is not in [visited], counted. *)
Definition unvisited {soup : Type} (pages : list (str * reply soup))
  (visited : list pyval) : nat :=
  length (filter (fun p => negb (member (PyStr (fst p)) visited)) pages).

(** The computation came to an end within its bound. *)
Definition finished {A : Type} (r : outcome A) : Prop :=
  match r with
  | OutOfFuel => False
  | _ => True
  end.

(** One when a chapter is open, else zero. *)
Definition opened (nd : NovelDownloader) : nat :=
  match current_chapter nd with Some _ => 1 | None => 0 end.

(** The last line on the console. *)
Definition last_line (m : machine) : option line :=
  match rev (console m) with
  | l :: _ => Some l
  | [] => None
  end.

End RunSpec.

Module UrlSpec.
Import PyStr.

(** The equals sign. *)
Definition EQUALS : N := 0x3D%N.

(** One step of [int]: the number read so far, and one digit more. *)
Definition read_digit (acc c : N) : N :=
  (10 * acc + match decimal_value c with Some d => d | None => 0 end)%N.

(** [s] begins with a decimal digit. *)
Definition digit_first (s : str) : bool :=
  match s with
  | c :: _ => is_decimal c
  | [] => false
  end.

Definition no_equals (s : str) : Prop :=
  Forall (fun c => (c =? EQUALS)%N = false) s.

(** The parameter [page=n] as it stands in a URL. *)
Definition page_param (n : N) : str := lit "page=" ++ digits_of n.

End UrlSpec.

Module MoreSamples.
Import PyStr Walker Sketch Samples.

(** Two pages that link to each other. *)
Definition two_way_pages : list (str * reply page) :=
  [(url1, Response 200 {| title := lit "Chapter 1"; content := Some (lit "AAA");
                          next := Some url2 |});
   (url2, Response 200 {| title := lit "Chapter 1"; content := Some (lit "BBB");
                          next := Some url1 |})].

(** A page whose next link is no URL: two slashes and an opening
    bracket. *)
Definition bad_link_page : page :=
  {| title := lit "Chapter 2"; content := Some (lit "BBB");
     next := Some (lit "//[") |}.

(** A page with the empty title before that page. *)
Definition bad_link_pages : list (str * reply page) :=
  [(url1, Response 200 {| title := []; content := Some (lit "AAA");
                          next := Some url2 |});
   (url2, Response 200 bad_link_page)].

(** A page in which no content is found. *)
Definition blank_page : page :=
  {| title := lit "Chapter 1"; content := None; next := Some url3 |}.

End MoreSamples.

Module TitleSpec2.
Import PyStr Title.

(** An opening bracket of one of the three kinds. *)
Definition is_opener (c : N) : bool :=
  match closer c with Some _ => true | None => false end.

(** A title with no opening bracket and no dash in it. *)
Definition plain (s : str) : bool :=
  negb (existsb is_opener s) && negb (existsb is_dash s).

(** A span in brackets: the opening bracket, the text in it, the closing
    bracket. *)
Definition bracketed (opener : N) (inner : str) (close : N) : str :=
  opener :: inner ++ [close].

(** The text [inner] can stand in brackets closed by [close]: it holds
    neither [close] nor a line feed. *)
Definition fits (close : N) (inner : str) : bool :=
  negb (existsb (fun c => (c =? close)%N || (c =? LF)%N) inner).

(** A page marker: a dash, white space, the ordinal sign if wanted,
    digits, a unit if wanted. *)
Definition page_mark (dash : N) (space : str) (ordinal : bool)
  (digits : str) (unit : option N) : str :=
  dash :: space ++ (if ordinal then [0x7B2C%N] else [])
       ++ digits ++ match unit with Some u => [u] | None => [] end.

Definition unit_ok (unit : option N) : bool :=
  match unit with Some u => is_unit u | None => true end.

(** U+7B2C U+4E00 U+7AE0, the title in the examples that the comments of
    lines 21 and 23 give. *)
Definition first_chapter : str := [0x7B2C; 0x4E00; 0x7AE0]%N.

(** [subsequence a b]: [a] is [b] with some of its code points taken out;
    those that stay are in the order they had. *)
Inductive subsequence : str -> str -> Prop :=
| subsequence_nil : subsequence [] []
| subsequence_keep c a b : subsequence a b -> subsequence (c :: a) (c :: b)
| subsequence_drop c a b : subsequence a b -> subsequence a (c :: b).

End TitleSpec2.

(* ================================================================== *)
(** * Facts about strings and title normalisation *)
(* ================================================================== *)

Unset Implicit Arguments.

Module StrFacts.
Import PyStr.

Lemma eqb_refl (a : str) : eqb a a = true.
Proof.
  induction a as [|x a IH]; simpl; [reflexivity|].
  now rewrite N.eqb_refl, IH.
Qed.

Lemma eqb_eq (a b : str) : eqb a b = true <-> a = b.
Proof.
  split.
  - revert b; induction a as [|x a IH]; intros [|y b] H; simpl in H;
      try discriminate; [reflexivity|].
    apply andb_true_iff in H as [Hx Hr].
    apply N.eqb_eq in Hx. subst y. f_equal. now apply IH.
  - intros ->. apply eqb_refl.
Qed.

Lemma eqb_neq (a b : str) : eqb a b = false <-> a <> b.
Proof.
  split.
  - intros H E. apply eqb_eq in E. congruence.
  - intros H. destruct (eqb a b) eqn:E; [|reflexivity].
    apply eqb_eq in E. contradiction.
Qed.

(** [lstrip] takes a prefix away, and what is left does not start with
    white space. *)
Lemma lstrip_split (s : str) : exists a, s = a ++ lstrip s.
Proof.
  induction s as [|c r [a IH]]; simpl.
  - now exists [].
  - destruct (is_space c).
    + exists (c :: a). simpl. now f_equal.
    + now exists [].
Qed.

Lemma lstrip_head (s : str) c r : lstrip s = c :: r -> is_space c = false.
Proof.
  induction s as [|x s IH]; simpl; [discriminate|].
  destruct (is_space x) eqn:E; [exact IH|].
  intros H. injection H as -> _. exact E.
Qed.

Lemma lstrip_fixed c r : is_space c = false -> lstrip (c :: r) = c :: r.
Proof. intros H. simpl. now rewrite H. Qed.

Lemma lstrip_idem (s : str) : lstrip (lstrip s) = lstrip s.
Proof.
  destruct (lstrip s) as [|c r] eqn:E; [reflexivity|].
  apply lstrip_fixed. eapply lstrip_head; eassumption.
Qed.

Lemma lstrip_snoc (a : str) x :
  is_space x = false -> lstrip (a ++ [x]) = lstrip a ++ [x].
Proof.
  intros Hx. induction a as [|c a IH]; simpl.
  - now rewrite Hx.
  - destruct (is_space c); [exact IH|reflexivity].
Qed.

Lemma rstrip_split (s : str) : exists b, s = rstrip s ++ b.
Proof.
  unfold rstrip. destruct (lstrip_split (rev s)) as [a Ha].
  exists (rev a). rewrite <- rev_app_distr, <- Ha. now rewrite rev_involutive.
Qed.

Lemma rstrip_idem (s : str) : rstrip (rstrip s) = rstrip s.
Proof. unfold rstrip. now rewrite rev_involutive, lstrip_idem. Qed.

Lemma lstrip_rstrip_lstrip (s : str) :
  lstrip (rstrip (lstrip s)) = rstrip (lstrip s).
Proof.
  destruct (lstrip s) as [|c r] eqn:E; [reflexivity|].
  apply lstrip_head in E.
  unfold rstrip. change (rev (c :: r)) with (rev r ++ [c]).
  rewrite (lstrip_snoc _ _ E), rev_app_distr.
  apply lstrip_fixed. exact E.
Qed.

Lemma strip_idem (s : str) : strip (strip s) = strip s.
Proof.
  unfold strip. now rewrite lstrip_rstrip_lstrip, rstrip_idem.
Qed.

Lemma strip_split (s : str) : exists a b, s = a ++ strip s ++ b.
Proof.
  unfold strip. destruct (lstrip_split s) as [a Ha].
  destruct (rstrip_split (lstrip s)) as [b Hb].
  exists a, b. now rewrite <- Hb.
Qed.

End StrFacts.

Module TitleFacts.
Import PyStr Title TitleSpec StrFacts.

#[local] Arguments bracket_span : simpl never.
#[local] Arguments page_marker : simpl never.

Lemma sub_free m (s : str) : free m s -> re_sub m s = s.
Proof.
  unfold re_sub. induction s as [|c r IH]; simpl; [reflexivity|].
  intros [H F]. rewrite H. f_equal. now apply IH.
Qed.

Lemma free_suffix m (a b : str) : free m (a ++ b) -> free m b.
Proof.
  induction a as [|c a IH]; simpl; [trivial|]. intros [_ F]. now apply IH.
Qed.

(** What [re.sub] leaves is made of code points of its argument. *)
Lemma sub_from_Forall (P : N -> Prop) m (s : str) :
  Forall P s -> forall k, Forall P (sub_from m k s).
Proof.
  induction 1 as [|c r Hc Hr IH]; intros k; simpl; [constructor|].
  destruct k; [|apply IH].
  destruct (m (c :: r)) as [[|j]|]; try (constructor; [exact Hc|apply IH]).
  apply IH.
Qed.

Lemma dashless_iff (s : str) : existsb is_dash s = false <-> dashless s.
Proof.
  unfold dashless. induction s as [|c r IH]; simpl.
  - split; [constructor|reflexivity].
  - rewrite orb_false_iff, IH. split.
    + intros [? ?]. now constructor.
    + intros H. inversion H. now split.
Qed.

Lemma dashless_free (s : str) : dashless s -> free page_marker s.
Proof.
  induction 1 as [|c r Hc Hr IH]; simpl; [exact I|].
  unfold page_marker. rewrite Hc. now split.
Qed.

Lemma dashless_part (a s b : str) : dashless (a ++ s ++ b) -> dashless s.
Proof.
  unfold dashless. intros H.
  apply Forall_app in H as [_ H]. now apply Forall_app in H as [H _].
Qed.

(** ** Bracket spans *)

Lemma closer_not_lf c close : closer c = Some close ->
  (c =? LF)%N = false /\ (close =? LF)%N = false.
Proof.
  unfold closer.
  destruct (c =? 0x28)%N eqn:E1; [|destruct (c =? 0xFF08)%N eqn:E2;
                                    [|destruct (c =? 0x3010)%N eqn:E3]];
    intros H; inversion H; subst; clear H;
    repeat match goal with
           | E : (_ =? _)%N = true |- _ => apply N.eqb_eq in E; subst
           end; split; reflexivity.
Qed.

Lemma span_to_no_lf close (s : str) j :
  (close =? LF)%N = false -> span_to close s = Some j -> no_lf (firstn j s).
Proof.
  intros Hc. revert j. induction s as [|c r IH]; intros j; simpl; [discriminate|].
  destruct (c =? close)%N eqn:E.
  - intros H. injection H as <-. simpl. apply N.eqb_eq in E. subst c.
    constructor; [exact Hc|constructor].
  - destruct (c =? LF)%N eqn:L; [discriminate|].
    destruct (span_to close r) as [j'|]; simpl; [|discriminate].
    intros H. injection H as <-. simpl. constructor; [exact L|]. now apply IH.
Qed.

Lemma bracket_span_cons c (r : str) :
  bracket_span (c :: r)
  = match closer c with
    | Some close => option_map S (span_to close r)
    | None => None
    end.
Proof. reflexivity. Qed.

Lemma bracket_span_shape c (r : str) n :
  bracket_span (c :: r) = Some n ->
  exists j, n = S j /\ (c =? LF)%N = false /\ no_lf (firstn j r).
Proof.
  unfold bracket_span. destruct (closer c) as [close|] eqn:C; [|discriminate].
  destruct (closer_not_lf _ _ C) as [Hc Hclose].
  destruct (span_to close r) as [j|] eqn:Sp; simpl; [|discriminate].
  intros H. injection H as <-. exists j. repeat split; trivial.
  eapply span_to_no_lf; eassumption.
Qed.

(** A delimiter that is not found on the rest of a line is not found
    there after the substitution either: a match takes code points of one
    line away, and no line feed. *)
Lemma span_to_sub close (s : str) : forall k,
  span_to close s = None -> no_lf (firstn k s) ->
  span_to close (sub_from bracket_span k s) = None.
Proof.
  induction s as [|c r IH]; intros k Hnone Hk; [reflexivity|].
  simpl in Hnone.
  destruct (c =? close)%N eqn:E; [discriminate|].
  destruct k as [|k].
  - simpl sub_from.
    destruct (bracket_span (c :: r)) as [n|] eqn:B.
    + destruct (bracket_span_shape _ _ _ B) as (j & -> & Hc & Hj).
      rewrite Hc in Hnone.
      destruct (span_to close r) eqn:Sr; [discriminate|].
      now apply IH.
    + simpl. rewrite E.
      destruct (c =? LF)%N; [reflexivity|].
      destruct (span_to close r) eqn:Sr; [discriminate|].
      now rewrite (IH 0 eq_refl (Forall_nil _)).
  - simpl in Hk. inversion Hk as [|? ? Hc Hk']; subst.
    rewrite Hc in Hnone.
    destruct (span_to close r) eqn:Sr; [discriminate|].
    simpl. now apply IH.
Qed.

Lemma sub_from_bracket_free (s : str) : forall k,
  free bracket_span (sub_from bracket_span k s).
Proof.
  induction s as [|c r IH]; intros k; simpl; [exact I|].
  destruct k; [|apply IH].
  destruct (bracket_span (c :: r)) as [n|] eqn:B.
  - destruct (bracket_span_shape _ _ _ B) as (j & -> & _ & _). apply IH.
  - split; [|apply IH].
    rewrite bracket_span_cons in B |- *.
    destruct (closer c) as [close|]; [|reflexivity].
    destruct (span_to close r) eqn:Sr; [discriminate|].
    now rewrite (span_to_sub close r 0 Sr (Forall_nil _)).
Qed.

Lemma span_to_prefix close (r b : str) :
  span_to close (r ++ b) = None -> span_to close r = None.
Proof.
  induction r as [|c r IH]; simpl; [reflexivity|].
  destruct (c =? close)%N; [discriminate|].
  destruct (c =? LF)%N; [reflexivity|].
  destruct (span_to close (r ++ b)); [discriminate|].
  intros _. now rewrite IH.
Qed.

Lemma bracket_free_prefix (a b : str) :
  free bracket_span (a ++ b) -> free bracket_span a.
Proof.
  induction a as [|c a IH]; simpl; [trivial|].
  intros [H F]. split; [|now apply IH].
  rewrite bracket_span_cons in H |- *.
  destruct (closer c) as [close|]; [|reflexivity].
  destruct (span_to close (a ++ b)) eqn:S1; [discriminate|].
  now rewrite (span_to_prefix _ _ _ S1).
Qed.

Lemma bracket_free_part (a s b : str) :
  free bracket_span (a ++ s ++ b) -> free bracket_span s.
Proof.
  intros H. apply free_suffix in H. now apply bracket_free_prefix in H.
Qed.

(** A title with no bracket span and no page marker in it, and no white
    space around it, is left as it is. *)
Lemma clean_fixed (t : str) :
  free bracket_span t -> free page_marker t -> strip t = t ->
  clean_chapter_title t = t.
Proof.
  intros Hb Hp Hs. unfold clean_chapter_title.
  now rewrite (sub_free _ _ Hb), (sub_free _ _ Hp).
Qed.

(** Normalising a title that is already normal (no bracket span, no page
    marker, no white space around it) gives it back. *)
Theorem clean_chapter_title_keeps_normal_title (t : str) :
  free bracket_span t -> free page_marker t -> strip t = t ->
  clean_chapter_title t = t.
Proof. exact (clean_fixed t). Qed.

(** A plain title. *)
Lemma clean_chapter_title_keeps_normal_title_witness :
  free bracket_span (lit "Chapter 1") /\ free page_marker (lit "Chapter 1")
  /\ strip (lit "Chapter 1") = lit "Chapter 1"
  /\ clean_chapter_title (lit "Chapter 1") = lit "Chapter 1".
Proof.
  assert (B : free bracket_span (lit "Chapter 1"))
    by (cbn; repeat (split; [reflexivity|]); exact I).
  assert (P : free page_marker (lit "Chapter 1"))
    by (cbn; repeat (split; [reflexivity|]); exact I).
  split; [exact B|]. split; [exact P|]. split; [reflexivity|].
  exact (clean_chapter_title_keeps_normal_title (lit "Chapter 1") B P eq_refl).
Defined.

(** On a title with no dash in it ([-] or the em dash U+2014),
    normalising twice gives what normalising once gives. *)
Corollary clean_chapter_title_idempotent_without_dash (s : str) :
  existsb is_dash s = false ->
  clean_chapter_title (clean_chapter_title s) = clean_chapter_title s.
Proof.
  intros Hd. apply dashless_iff in Hd.
  assert (D1 : dashless (re_sub bracket_span s))
    by (apply sub_from_Forall; exact Hd).
  unfold clean_chapter_title at 2 3.
  rewrite (sub_free _ _ (dashless_free _ D1)).
  destruct (strip_split (re_sub bracket_span s)) as (a & b & Hab).
  apply clean_fixed.
  - apply (bracket_free_part a _ b). rewrite <- Hab.
    apply sub_from_bracket_free.
  - apply dashless_free. apply (dashless_part a _ b). now rewrite <- Hab.
  - apply strip_idem.
Qed.

(** A title with a page count in brackets and no dash. *)
Lemma clean_chapter_title_idempotent_without_dash_witness :
  existsb is_dash (lit " Chapter 1 (2/3) ") = false
  /\ clean_chapter_title (clean_chapter_title (lit " Chapter 1 (2/3) "))
     = clean_chapter_title (lit " Chapter 1 (2/3) ").
Proof.
  split; [reflexivity|].
  apply (clean_chapter_title_idempotent_without_dash (lit " Chapter 1 (2/3) ")).
  reflexivity.
Defined.

(** C5, as the claim states it, fails: a page marker that the first pass
    takes out can bring a dash and a number together, and the second pass
    takes them out as a marker of their own. *)
Lemma clean_chapter_title_not_idempotent :
  clean_chapter_title (lit "- -1 2") = lit "-  2"
  /\ clean_chapter_title (clean_chapter_title (lit "- -1 2")) = []
  /\ clean_chapter_title (clean_chapter_title (lit "- -1 2"))
     <> clean_chapter_title (lit "- -1 2").
Proof.
  repeat split; try reflexivity. vm_compute. discriminate.
Qed.

End TitleFacts.

(* ================================================================== *)
(** * Facts about the extractors *)
(* ================================================================== *)

Module ExtractFacts.
Import PyStr Bs4 Extract ExtractSpec Samples StrFacts.

(** ** The title extractor (C7) *)

(** C7, as the code has it.  The extractor returns the normalised text of
    the first heuristic whose raw text is there, and the sentinel when none
    is; it does not look at the normalised text, so it returns the empty
    string exactly when that text is empty. *)
Theorem extract_chapter_title_by_raw_text (soup : BeautifulSoup) :
  extract_chapter_title soup
  = match raw_title soup with
    | Some t => Title.clean_chapter_title t
    | None => UNTITLED
    end
  /\ (extract_chapter_title soup = [] <->
      exists t, raw_title soup = Some t /\ Title.clean_chapter_title t = []).
Proof.
  assert (E : extract_chapter_title soup
              = match raw_title soup with
                | Some t => Title.clean_chapter_title t
                | None => UNTITLED
                end).
  { unfold extract_chapter_title, raw_title.
    destruct (find (tag_matches (by_name "h1")) soup) as [[h1 put1]|];
      [destruct (truthy (get_text [] h1)); [reflexivity|]|];
      destruct (find (tag_matches (by_name "title")) soup) as [[t put]|];
      reflexivity. }
  split; [exact E|]. rewrite E. split.
  - destruct (raw_title soup) as [t|]; [|discriminate].
    intros H. now exists t.
  - intros (t & -> & H). exact H.
Qed.

(** C7, as the claim states it, fails: the heading is there, its
    normalised text is empty, and the extractor returns it without going on
    to the document title, which would have given a title. *)
Lemma extract_chapter_title_returns_empty :
  extract_chapter_title page_count_heading = []
  /\ raw_title page_count_heading = Some (lit "(1/3)")
  /\ extract_chapter_title
       (document [element "head" [] [element "title" [] [text "Chapter 1 - Site"]]])
     = lit "Chapter 1".
Proof. repeat split; reflexivity. Qed.

(** ** The content extractor (C4, C10) *)

Lemma join_length_le (sep : str) (parts : list str) :
  length (join [] parts) <= length (join sep parts).
Proof.
  induction parts as [|p [|q r] IH]; simpl in *; [lia|lia|].
  rewrite !length_app. simpl in IH. lia.
Qed.

Lemma first_content_none (soup : BeautifulSoup) (sels : list selector) :
  fst (first_content sels soup) = None <-> Forall (falls_short soup) sels.
Proof.
  induction sels as [|sel rest IH]; simpl.
  - split; [constructor|reflexivity].
  - unfold falls_short at 1, first_match.
    destruct (find (tag_matches sel) soup) as [[root put]|] eqn:F; simpl.
    + destruct (100 <? length (get_text [] root)) eqn:L; simpl.
      * split; [discriminate|]. intros H. inversion H as [|? ? Hs _]; subst.
        unfold falls_short, first_match in Hs. rewrite F in Hs. simpl in Hs.
        apply Nat.ltb_lt in L. lia.
      * rewrite IH. apply Nat.ltb_ge in L. split.
        -- intros H. constructor; [|exact H].
           unfold falls_short, first_match. rewrite F. exact L.
        -- intros H. now inversion H.
    + rewrite IH. split.
      * intros H. constructor; [|exact H].
        unfold falls_short, first_match. now rewrite F.
      * intros H. now inversion H.
Qed.

(** The selector that gives the content is the first one in the list whose
    first match has more than 100 code points of text: the selectors before
    it all fall short. *)
Lemma first_content_some (soup : BeautifulSoup) (sels : list selector) text :
  fst (first_content sels soup) = Some text ->
  exists earlier sel later root,
    sels = earlier ++ sel :: later
    /\ Forall (falls_short soup) earlier
    /\ first_match sel soup = Some root
    /\ 100 < length (get_text [] root)
    /\ text = get_text [LF] (decompose_all unwanted root).
Proof.
  induction sels as [|sel rest IH]; simpl; [discriminate|].
  assert (Later : fst (first_content rest soup) = Some text ->
                  falls_short soup sel ->
                  exists earlier sel0 later root,
                    sel :: rest = earlier ++ sel0 :: later
                    /\ Forall (falls_short soup) earlier
                    /\ first_match sel0 soup = Some root
                    /\ 100 < length (get_text [] root)
                    /\ text = get_text [LF] (decompose_all unwanted root)).
  { intros H Hs. destruct (IH H) as (e & s' & l & r' & -> & He & Hrest).
    exists (sel :: e), s', l, r'. split; [reflexivity|].
    split; [now constructor|exact Hrest]. }
  destruct (find (tag_matches sel) soup) as [[root put]|] eqn:F.
  - destruct (100 <? length (get_text [] root)) eqn:L; simpl.
    + intros H. injection H as <-. exists [], sel, rest, root.
      unfold first_match. rewrite F. apply Nat.ltb_lt in L.
      repeat split; trivial.
    + intros H. apply (Later H).
      unfold falls_short, first_match. rewrite F. simpl.
      now apply Nat.ltb_ge in L.
  - intros H. apply (Later H).
    unfold falls_short, first_match. now rewrite F.
Qed.

(** And the other way round: such a selector decides the result. *)
Lemma first_content_first (soup : BeautifulSoup) (earlier later : list selector)
  (sel : selector) (root : node) :
  Forall (falls_short soup) earlier ->
  first_match sel soup = Some root ->
  100 < length (get_text [] root) ->
  fst (first_content (earlier ++ sel :: later) soup)
  = Some (get_text [LF] (decompose_all unwanted root)).
Proof.
  intros He Hm Hl. induction He as [|s e Hs He IH]; simpl.
  - unfold first_match in Hm.
    destruct (find (tag_matches sel) soup) as [[r put]|]; [|discriminate].
    injection Hm as ->. apply Nat.ltb_lt in Hl. now rewrite Hl.
  - unfold falls_short, first_match in Hs.
    destruct (find (tag_matches s) soup) as [[r put]|]; [|exact IH].
    simpl in Hs. apply Nat.ltb_ge in Hs. now rewrite Hs.
Qed.

(** C4, as the code has it.  Nothing is found exactly when no selector's
    first match has more than 100 code points of text.  Otherwise the
    result comes from the first qualifying root, and from no other: the
    selector is the first one in the list whose first match has more than
    100 code points of text (every selector before it falls short), and the
    result is the text of that match once its unwanted descendants are
    gone, line by line.  It is at least as long as that text without the
    line breaks, which may be far less than 100. *)
Theorem extract_main_content_threshold (soup : BeautifulSoup) :
  (fst (extract_main_content soup) = None
   <-> Forall (falls_short soup) selectors)
  /\ (forall text,
        fst (extract_main_content soup) = Some text
        <-> exists earlier sel later root,
              selectors = earlier ++ sel :: later
              /\ Forall (falls_short soup) earlier
              /\ first_match sel soup = Some root
              /\ 100 < length (get_text [] root)
              /\ text = get_text [LF] (decompose_all unwanted root)
              /\ length (get_text [] (decompose_all unwanted root))
                 <= length text).
Proof.
  unfold extract_main_content. split; [apply first_content_none|].
  intros text. split.
  - intros E.
    destruct (first_content_some _ _ _ E)
      as (earlier & sel & later & root & Hsel & He & Hm & Hl & ->).
    exists earlier, sel, later, root. repeat split; trivial.
    apply join_length_le.
  - intros (earlier & sel & later & root & -> & He & Hm & Hl & -> & _).
    now apply first_content_first.
Qed.

(** Where nothing had to be taken out, the result has more than 100 code
    points. *)
Corollary extract_main_content_long (soup : BeautifulSoup) text :
  fst (extract_main_content soup) = Some text ->
  (forall sel root, In sel selectors -> first_match sel soup = Some root ->
                    decompose_all unwanted root = root) ->
  100 < length text.
Proof.
  intros E Hclean.
  destruct (first_content_some _ _ _ E)
    as (earlier & sel & later & root & Hsel & _ & Hm & Hl & ->).
  assert (Hin : In sel selectors)
    by (rewrite Hsel; apply in_elt).
  rewrite (Hclean sel root Hin Hm).
  pose proof (join_length_le [LF] (filter truthy (map strip (strings root)))) as J.
  unfold get_text in *. lia.
Qed.

(** C4, as the claim states it, fails twice: an element of exactly 100
    code points is not taken, and an element that is taken may give a
    result of two. *)
Lemma extract_main_content_threshold_fails :
  first_match (hd (by_name "") selectors) page_of_100 = Some block_of_100
  /\ length (get_text [] block_of_100) = 100
  /\ fst (extract_main_content page_of_100) = None
  /\ fst (extract_main_content page_mostly_ad) = Some (lit "hi").
Proof. repeat split; vm_compute; reflexivity. Qed.

(** Where two elements qualify, the order of the selectors decides, not
    the order in the page: the [div] of class [content] goes before the
    [article]. *)
Example extract_main_content_takes_first_selector :
  fst (extract_main_content page_two_roots) = Some (repeat 0x78%N 101).
Proof. vm_compute. reflexivity. Qed.


(** C10 at its failing input: the [div] of class [ad] stays, and its text
    is the first line of the content. *)
Theorem extract_main_content_keeps_ad_div :
  fst (extract_main_content page_with_ad_div)
  = Some (lit "BUY NOW" ++ [LF] ++ repeat 0x78%N 101).
Proof. vm_compute. reflexivity. Qed.

(** The names that are tag names do their work. *)
Example extract_main_content_drops_ins :
  fst (extract_main_content page_with_ins) = Some (repeat 0x78%N 101).
Proof. vm_compute. reflexivity. Qed.

(** ** The next link by URL (C8) *)

(** C8 at its failing input: the number of a second parameter that
    happens to end in the matched text is changed as well. *)
Theorem extract_next_page_rewrites_other_parameter :
  extract_next_page (document []) (lit "http://h/list?page=1&perpage=10")
  = Ok (Some (lit "http://h/list?page=2&perpage=20")).
Proof. vm_compute. reflexivity. Qed.

(** An anchor found by its text goes before one found by its class,
    wherever the two stand in the page. *)
Theorem extract_next_page_keyword_first (soup : BeautifulSoup) (url href : str) :
  first_href (map anchor_with_text next_keywords) soup = Some href ->
  extract_next_page soup url = Ok (Some href).
Proof. intros H. unfold extract_next_page. now rewrite H. Qed.

(** The anchor with the class comes first in the page, and the one with
    the keyword is taken. *)
Lemma extract_next_page_keyword_first_witness :
  first_href (map anchor_with_text next_keywords) page_two_links
    = Some (lit "/by-text")
  /\ first_href (map anchor_with_class next_classes) page_two_links
    = Some (lit "/by-class")
  /\ extract_next_page page_two_links url1 = Ok (Some (lit "/by-text")).
Proof.
  split; [reflexivity|]. split; [reflexivity|].
  exact (extract_next_page_keyword_first page_two_links url1 (lit "/by-text")
           eq_refl).
Defined.

(** The example of the specification. *)
Example extract_next_page_read_page_3 :
  extract_next_page (document []) (lit "http://site/read?page=3")
  = Ok (Some (lit "http://site/read?page=4")).
Proof. vm_compute. reflexivity. Qed.

End ExtractFacts.

(* ================================================================== *)
(** * Facts about the walk *)
(* ================================================================== *)

Module WalkerFacts.
Import PyStr Walker WalkerSpec StrFacts.

Ltac run_monad :=
  cbv [bind ret get_self put_self print append requested truncate
       raise_interrupt out_of_fuel except_interrupt failed].

(** ** The sink (C6) *)

Lemma save_current_chapter_spec (m : machine) :
  save_current_chapter m
  = (Done tt,
     {| self := self m;
        disk := disk m ++ flushed (self m);
        console := console m
                   ++ (if idle (self m) then []
                       else match current_chapter (self m) with
                            | Some t => [Saved t]
                            | None => []
                            end);
        requests := requests m |}).
Proof.
  destruct m as [[visited cur acc n] d con req].
  unfold save_current_chapter, flushed, idle, block. run_monad. simpl.
  destruct cur as [t|]; [destruct acc as [|c acc]; [|destruct t as [|x t]]|];
    simpl; rewrite ?app_nil_r; try reflexivity.
  do 2 f_equal. change (x :: t ++ [LF]) with ((x :: t) ++ [LF]).
  change (x :: t ++ LF :: (c ++ concat acc) ++ [LF])
    with ((x :: t) ++ [LF] ++ (c ++ concat acc) ++ [LF]).
  now rewrite <- !app_assoc.
Qed.



(** ** Grouping *)

Lemma merge_head (t : str) (a : list str) (g : list chapter) :
  exists fs g', merge t a g = (t, fs) :: g'.
Proof.
  destruct g as [|[t' fs] more]; simpl; [now eexists _, _|].
  destruct (eqb t t'); now eexists _, _.
Qed.

Lemma merge_merge (t : str) (a b : list str) (g : list chapter) :
  merge t a (merge t b g) = merge t (a ++ b) g.
Proof.
  destruct g as [|[t' fs] more]; simpl.
  - now rewrite eqb_refl.
  - destruct (eqb t t') eqn:E; simpl; rewrite eqb_refl; [|reflexivity].
    now rewrite app_assoc.
Qed.

Lemma merge_other (t0 t : str) (a b : list str) (g : list chapter) :
  eqb t0 t = false -> merge t0 a (merge t b g) = (t0, a) :: merge t b g.
Proof.
  intros E. destruct (merge_head t b g) as (fs & g' & ->). simpl. now rewrite E.
Qed.

Lemma render_pending_nothing (nd : NovelDownloader) :
  well_opened nd -> render (titled (pending nd [])) = flushed nd.
Proof.
  unfold well_opened, pending, flushed, idle, titled.
  destruct (current_chapter nd) as [t|]; [|reflexivity].
  intros Hc. simpl.
  destruct (chapter_content nd); [contradiction|].
  destruct (truthy t); simpl; now rewrite ?app_nil_r.
Qed.

(** ** One page *)

Lemma pyval_eqb_refl (v : pyval) : pyval_eqb v v = true.
Proof. destruct v as [|[|]|s]; simpl; trivial. apply eqb_refl. Qed.

Section SiteFacts.

Context {soup : Type}.
Variable extract_chapter_title : soup -> str.
Variable extract_main_content : soup -> option str * soup.
Variable extract_next_page : soup -> str -> result (option str).
Variable urljoin : str -> str -> result str.
Variable web : str -> reply soup.

#[local] Abbreviation process_page :=
  (process_page extract_chapter_title extract_main_content
                extract_next_page urljoin web).
#[local] Abbreviation walk :=
  (walk extract_chapter_title extract_main_content
        extract_next_page urljoin web).
#[local] Abbreviation download_novel :=
  (download_novel extract_chapter_title extract_main_content
                  extract_next_page urljoin web).
#[local] Abbreviation content_of := (content_of extract_main_content).
#[local] Abbreviation link_of :=
  (link_of extract_main_content extract_next_page urljoin).
#[local] Abbreviation target_of :=
  (target_of extract_main_content extract_next_page urljoin).
#[local] Abbreviation halts := (halts extract_main_content web).
#[local] Abbreviation chain :=
  (chain extract_chapter_title extract_main_content extract_next_page
         urljoin web).

(** The visited check: a target that was visited before is answered by
    [True], and nothing changes: no request, nothing written, nothing
    printed. *)
Theorem process_page_visited_is_noop (m : machine) (url : pyval) :
  member url (visited_urls (self m)) = true ->
  process_page url m = (Done (PyBool true), m).
Proof.
  intros H. unfold Walker.process_page. run_monad. now rewrite H.
Qed.

(** A request that raises: one line on the console, and [False]. *)
Lemma process_page_raises (m : machine) (url : pyval) (e : str) :
  member url (visited_urls (self m)) = false ->
  session_get web url = Raises e ->
  process_page url m
  = (Done (PyBool false),
     {| self := {| visited_urls := url :: visited_urls (self m);
                   current_chapter := current_chapter (self m);
                   chapter_content := chapter_content (self m);
                   chapter_count := chapter_count (self m) |};
        disk := disk m;
        console := console m ++ [Failed url e];
        requests := requests m ++ [url] |}).
Proof.
  intros Hv Hw. unfold Walker.process_page. run_monad.
  rewrite Hv. simpl. now rewrite Hw.
Qed.

(** C9, as the code has it.  When the request for a page raises an
    exception (no connection, time-out), the walk ends there: the URL was
    asked for once, the console has one more line, with the URL and the
    message, and the chapters and the file are as they were. *)
Theorem walk_ends_when_request_raises (m : machine) (u e : str) (fuel : nat) :
  truthy u = true ->
  member (PyStr u) (visited_urls (self m)) = false ->
  web u = Raises e ->
  walk (S fuel) (PyStr u) m
  = (Done tt,
     {| self := {| visited_urls := PyStr u :: visited_urls (self m);
                   current_chapter := current_chapter (self m);
                   chapter_content := chapter_content (self m);
                   chapter_count := chapter_count (self m) |};
        disk := disk m;
        console := console m ++ [Failed (PyStr u) e];
        requests := requests m ++ [PyStr u] |}).
Proof.
  intros Ht Hv Hw. simpl. rewrite Ht. unfold bind at 1.
  rewrite (process_page_raises m (PyStr u) e Hv Hw).
  now destruct fuel.
Qed.

(** A page with content: what [process_page] makes of it. *)
Lemma process_page_accepts (m : machine) (u : str) status (page : soup) (c : str) :
  member (PyStr u) (visited_urls (self m)) = false ->
  web u = Response status page ->
  content_of page = Some c ->
  exists m1,
    process_page (PyStr u) m = (Done (target_of u page), m1)
    /\ visited_urls (self m1) = PyStr u :: visited_urls (self m)
    /\ current_chapter (self m1) = Some (extract_chapter_title page)
    /\ if differs (extract_chapter_title page) (current_chapter (self m))
       then disk m1 = disk m ++ flushed (self m)
            /\ chapter_content (self m1) = [c]
       else disk m1 = disk m
            /\ chapter_content (self m1) = chapter_content (self m) ++ [c].
Proof.
  intros Hv Hw Hc.
  unfold Walker.process_page, WalkerSpec.target_of, WalkerSpec.link_of.
  unfold WalkerSpec.content_of in Hc.
  destruct (extract_main_content page) as [content page'] eqn:E.
  simpl in Hc |- *.
  destruct content as [[|x text]|]; try discriminate.
  injection Hc as <-.
  run_monad. rewrite Hv. simpl. rewrite Hw, E.
  unfold accept_page. run_monad. simpl.
  destruct (differs (extract_chapter_title page) (current_chapter (self m))) eqn:D.
  - rewrite save_current_chapter_spec. simpl.
    destruct (extract_next_page page' u) as [[n|]|e];
      [destruct (truthy n && negb (is_absolute n)); [destruct (urljoin u n)|]| |];
      (eexists; split; [reflexivity|]; simpl; auto).
  - assert (Hcur : current_chapter (self m) = Some (extract_chapter_title page)).
    { unfold differs in D. destruct (current_chapter (self m)) as [t|]; [|discriminate].
      apply negb_false_iff, eqb_eq in D. now subst. }
    destruct (extract_next_page page' u) as [[n|]|e];
      [destruct (truthy n && negb (is_absolute n)); [destruct (urljoin u n)|]| |];
      (eexists; split; [reflexivity|]; simpl; auto).
Qed.

(** A page without content: one line on the console, and [False]. *)
Lemma process_page_no_content (m : machine) (u : str) status (page : soup) :
  member (PyStr u) (visited_urls (self m)) = false ->
  web u = Response status page ->
  content_of page = None ->
  process_page (PyStr u) m
  = (Done (PyBool false),
     {| self := {| visited_urls := PyStr u :: visited_urls (self m);
                   current_chapter := current_chapter (self m);
                   chapter_content := chapter_content (self m);
                   chapter_count := chapter_count (self m) |};
        disk := disk m;
        console := console m ++ [NoContent (PyStr u)];
        requests := requests m ++ [PyStr u] |}).
Proof.
  intros Hv Hw Hc. unfold Walker.process_page. run_monad.
  rewrite Hv. simpl. rewrite Hw.
  unfold WalkerSpec.content_of in Hc.
  destruct (extract_main_content page) as [content page'].
  simpl in Hc. now destruct content as [[|x text]|].
Qed.

(** ** The end of a walk *)

Lemma walk_stops (fuel : nat) (v : pyval) (m : machine) :
  is_true v = false -> walk fuel v m = (Done tt, m).
Proof. intros H. destruct fuel; simpl; now rewrite H. Qed.

Lemma walk_step (fuel : nat) (v : pyval) (m : machine) :
  is_true v = true ->
  walk (S fuel) v m
  = match process_page v m with
    | (Done next, m') => walk fuel next m'
    | (KeyboardInterrupt, m') => (KeyboardInterrupt, m')
    | (OutOfFuel, m') => (OutOfFuel, m')
    end.
Proof. intros H. simpl. now rewrite H. Qed.

(** Where the walk halts, it leaves the file and the open chapter as they
    are, within two rounds. *)
Lemma halts_walk (visited : list pyval) (v : pyval) :
  halts visited v ->
  member (PyBool true) visited = false ->
  forall (m : machine) (fuel : nat),
    visited_urls (self m) = visited -> 2 <= fuel ->
    exists m',
      walk fuel v m = (Done tt, m')
      /\ disk m' = disk m
      /\ current_chapter (self m') = current_chapter (self m)
      /\ chapter_content (self m') = chapter_content (self m).
Proof.
  intros H Htrue m fuel Hm Hfuel.
  destruct fuel as [|[|fuel]]; try lia.
  destruct H as [v Hv|u Hu Hin|u e Hu Hin Hw|u status page Hu Hin Hw Hc].
  - exists m. now rewrite walk_stops.
  - rewrite walk_step by exact Hu.
    assert (P : process_page (PyStr u) m = (Done (PyBool true), m)).
    { unfold Walker.process_page. run_monad. now rewrite Hm, Hin. }
    rewrite P, walk_step by reflexivity.
    erewrite (process_page_raises m (PyBool true))
      by (first [rewrite Hm; exact Htrue | reflexivity]).
    eexists. rewrite walk_stops by reflexivity. simpl. auto.
  - rewrite walk_step by exact Hu.
    rewrite (process_page_raises m (PyStr u) e) by (rewrite ?Hm; trivial).
    eexists. rewrite walk_stops by reflexivity. simpl. auto.
  - rewrite walk_step by exact Hu.
    rewrite (process_page_no_content m u status page) by (rewrite ?Hm; trivial).
    eexists. rewrite walk_stops by reflexivity. simpl. auto.
Qed.

(** ** The walk over a chain of pages *)

Lemma walk_chain (visited : list pyval) (v : pyval) (pages : list (str * str)) :
  chain visited v pages ->
  member (PyBool true) visited = false ->
  forall (m : machine) (fuel : nat),
    visited_urls (self m) = visited ->
    well_opened (self m) ->
    length pages + 2 <= fuel ->
    exists m',
      walk fuel v m = (Done tt, m')
      /\ disk m' ++ flushed (self m')
         = disk m ++ render (titled (pending (self m) pages)).
Proof.
  induction 1 as [visited v Hh|visited u status page c pages Hu Hin Hw Hc Hch IH];
    intros Htrue m fuel Hm Hopen Hfuel.
  - destruct (halts_walk visited v Hh Htrue m fuel Hm Hfuel)
      as (m' & Hwalk & Hd & Hcur & Hcont).
    exists m'. split; [exact Hwalk|].
    rewrite (render_pending_nothing _ Hopen), Hd.
    unfold flushed, idle. now rewrite Hcur, Hcont.
  - simpl in Hfuel. destruct fuel as [|fuel]; [lia|].
    subst visited.
    destruct (process_page_accepts m u status page c Hin Hw Hc)
      as (m1 & Hp & Hv1 & Hcur1 & Hcase).
    rewrite walk_step by exact Hu. rewrite Hp.
    assert (Hopen1 : well_opened (self m1)).
    { unfold well_opened. rewrite Hcur1.
      destruct (differs _ _); destruct Hcase as [_ ->];
        [discriminate|now destruct (chapter_content (self m))]. }
    assert (Htrue1 : member (PyBool true) (PyStr u :: visited_urls (self m)) = false)
      by exact Htrue.
    destruct (IH Htrue1 m1 fuel Hv1 Hopen1 ltac:(lia)) as (m' & Hwalk & Hdisk).
    exists m'. split; [exact Hwalk|]. rewrite Hdisk. clear Hwalk Hdisk IH.
    unfold pending at 1. rewrite Hcur1.
    unfold pending, well_opened in *. simpl group.
    destruct (current_chapter (self m)) as [t0|] eqn:Hcur0; simpl in Hcase.
    + destruct (eqb (extract_chapter_title page) t0) eqn:E; simpl in Hcase;
        destruct Hcase as [-> ->].
      * apply eqb_eq in E. subst t0. now rewrite merge_merge.
      * assert (E' : eqb t0 (extract_chapter_title page) = false).
        { apply eqb_neq. apply eqb_neq in E. congruence. }
        rewrite (merge_other _ _ _ _ _ E'). unfold titled. simpl.
        unfold flushed, idle. rewrite Hcur0.
        destruct (chapter_content (self m)); [contradiction|].
        destruct (truthy t0); simpl; now rewrite <- ?app_assoc, ?app_nil_r.
    + destruct Hcase as [-> ->]. unfold flushed, idle. rewrite Hcur0.
      now rewrite app_nil_r.
Qed.


End SiteFacts.

(** ** The program on the sample webs *)

Import Sketch Samples.

(** The chain of the specification's last example. *)
Lemma three_pages_chain :
  chain title (fun p => (content p, p)) (fun p _ => Ok (next p)) no_join three_pages
        [] (PyStr url1)
        [(lit "Chapter 1", lit "AAA"); (lit "Chapter 1", lit "BBB");
         (lit "Chapter 2", lit "CCC")].
Proof.
  apply (@chain_page _ title (fun p => (content p, p)) (fun p _ => Ok (next p))
           no_join three_pages [] url1 200
           {| title := lit "Chapter 1"; content := Some (lit "AAA");
              next := Some url2 |}); try reflexivity.
  apply (@chain_page _ title (fun p => (content p, p)) (fun p _ => Ok (next p))
           no_join three_pages [PyStr url1] url2 200
           {| title := lit "Chapter 1"; content := Some (lit "BBB");
              next := Some url3 |}); try reflexivity.
  apply (@chain_page _ title (fun p => (content p, p)) (fun p _ => Ok (next p))
           no_join three_pages [PyStr url2; PyStr url1] url3 200
           {| title := lit "Chapter 2"; content := Some (lit "CCC");
              next := None |}); try reflexivity.
  apply chain_end. apply halts_no_target. reflexivity.
Defined.


(** C1 at its failing input, a walk over two pages.  The heading of the
    first page normalises to the empty title, and its content has 101 code
    points; the second page has the title Chapter 2.  The first page opens
    a chapter, which is counted; at the second page the sink is called for
    it and writes nothing, because its title is empty, and its content is
    dropped.  The file has the block of Chapter 2 only, and the program
    reports two chapters saved. *)
Theorem run_drops_untitled_chapter :
  Extract.extract_chapter_title (chapter_page "(1/3)" 101 [next_link "http://novel/2"]) = []
  /\ fst (Extract.extract_main_content
            (chapter_page "(1/3)" 101 [next_link "http://novel/2"]))
     = Some (repeat 0x78%N 101)
  /\ fst (run no_join web_page_count 5 url1 (boot [])) = Done tt
  /\ disk (snd (run no_join web_page_count 5 url1 (boot [])))
     = lit "Chapter 2" ++ [LF] ++ repeat 0x78%N 102 ++ [LF]
  /\ console (snd (run no_join web_page_count 5 url1 (boot [])))
     = [Starting url1; Saved (lit "Chapter 2"); Finished 2; Elapsed]
  /\ requests (snd (run no_join web_page_count 5 url1 (boot [])))
     = [PyStr url1; PyStr url2].
Proof. repeat split; vm_compute; reflexivity. Qed.

(** C2 at its failing input, a page whose next link leads back to it.  The
    visited check answers [True], the loop takes [True] for the next URL
    and goes round once more: [True] is requested, the request is refused,
    and the refusal is printed as a failure. *)
Theorem run_on_cycle_requests_true :
  fst (run no_join web_cycle 5 url1 (boot [])) = Done tt
  /\ requests (snd (run no_join web_cycle 5 url1 (boot [])))
     = [PyStr url1; PyBool true]
  /\ console (snd (run no_join web_cycle 5 url1 (boot [])))
     = [Starting url1;
        Failed (PyBool true)
               (lit "Invalid URL 'True': No scheme supplied. Perhaps you meant https://True?");
        Saved (lit "Chapter 1"); Finished 1; Elapsed]
  /\ visited_urls (self (snd (run no_join web_cycle 5 url1 (boot []))))
     = [PyBool true; PyStr url1].
Proof. repeat split; vm_compute; reflexivity. Qed.

(** C3 at its failing input: the interrupt arrives while the second page
    is requested.  The program says that it saves what it has, and
    exits; the file is empty, and the fragment of the first page is still
    in the object. *)
Theorem run_interrupted_writes_nothing :
  fst (run no_join web_interrupted 5 url1 (boot [])) = Done tt
  /\ console (snd (run no_join web_interrupted 5 url1 (boot [])))
     = [Starting url1; UserInterrupt; Elapsed]
  /\ disk (snd (run no_join web_interrupted 5 url1 (boot []))) = []
  /\ current_chapter (self (snd (run no_join web_interrupted 5 url1 (boot []))))
     = Some (lit "Chapter 1")
  /\ chapter_content (self (snd (run no_join web_interrupted 5 url1 (boot []))))
     = [repeat 0x78%N 101].
Proof. repeat split; vm_compute; reflexivity. Qed.

(** The page that was just read is asked for again. *)
Lemma process_page_visited_is_noop_witness :
  member (PyStr url1) (visited_urls (self open_chapter)) = true
  /\ Walker.process_page Extract.extract_chapter_title
        Extract.extract_main_content Extract.extract_next_page no_join
        web_cycle (PyStr url1) open_chapter
     = (Done (PyBool true), open_chapter).
Proof.
  split; [reflexivity|].
  exact (process_page_visited_is_noop
           Extract.extract_chapter_title Extract.extract_main_content
           Extract.extract_next_page no_join web_cycle open_chapter
           (PyStr url1) eq_refl).
Defined.

(** A request that finds no server. *)
Lemma walk_ends_when_request_raises_witness :
  truthy url2 = true
  /\ member (PyStr url2) (visited_urls (self open_chapter)) = false
  /\ Sketch.serve [] url2 = @Raises page (lit "connection refused")
  /\ Walker.walk title (fun p => (content p, p)) (fun p _ => Ok (next p)) no_join
                 (Sketch.serve []) 1 (PyStr url2) open_chapter
     = (Done tt,
        {| self := {| visited_urls := [PyStr url2; PyStr url1];
                      current_chapter := Some (lit "Chapter 1");
                      chapter_content := [lit "AAA"];
                      chapter_count := 1 |};
           disk := [];
           console := [Failed (PyStr url2) (lit "connection refused")];
           requests := [PyStr url1; PyStr url2] |}).
Proof.
  split; [reflexivity|]. split; [reflexivity|]. split; [reflexivity|].
  exact (walk_ends_when_request_raises
           title (fun p => (content p, p)) (fun p _ => Ok (next p)) no_join
           (Sketch.serve []) open_chapter url2 (lit "connection refused") 0
           eq_refl eq_refl eq_refl).
Defined.

(** C9, as the claim states it, fails for a response that is no success:
    the error page of a 404 is read like any page, and its text is in the
    file. *)
Lemma run_on_404_keeps_error_page :
  web_404 url2 = Response 404 (chapter_page "Not Found" 102 [])
  /\ fst (run no_join web_404 5 url1 (boot [])) = Done tt
  /\ disk (snd (run no_join web_404 5 url1 (boot [])))
     = lit "Chapter 1" ++ [LF] ++ repeat 0x78%N 101 ++ [LF]
       ++ lit "Not Found" ++ [LF] ++ repeat 0x78%N 102 ++ [LF]
  /\ console (snd (run no_join web_404 5 url1 (boot [])))
     = [Starting url1; Saved (lit "Chapter 1"); Saved (lit "Not Found");
        Finished 2; Elapsed].
Proof. repeat split; vm_compute; reflexivity. Qed.

End WalkerFacts.

(* ================================================================== *)
(** * Invariants of a run *)
(* ================================================================== *)

Module RunFacts.
Import PyStr Walker WalkerSpec RunSpec StrFacts WalkerFacts.

Lemma pyval_eqb_eq (a b : pyval) : pyval_eqb a b = true <-> a = b.
Proof.
  split.
  - destruct a as [|x|x], b as [|y|y]; simpl; try discriminate; trivial.
    + intros H. apply Bool.eqb_prop in H. now subst.
    + intros H. apply eqb_eq in H. now subst.
  - intros ->. apply pyval_eqb_refl.
Qed.

Lemma member_In (v : pyval) (l : list pyval) : member v l = true <-> In v l.
Proof.
  unfold member. rewrite existsb_exists. split.
  - intros (x & Hin & E). apply pyval_eqb_eq in E. now subst.
  - intros H. exists v. split; [exact H|apply pyval_eqb_refl].
Qed.

Lemma grows_refl (m : machine) : grows m m.
Proof. repeat split; exists []; now rewrite ?app_nil_r. Qed.

Lemma grows_trans (a b c : machine) : grows a b -> grows b c -> grows a c.
Proof.
  intros ((w1 & D1) & (r1 & R1) & (v1 & V1)) ((w2 & D2) & (r2 & R2) & (v2 & V2)).
  repeat split.
  - exists (w1 ++ w2). now rewrite D2, D1, app_assoc.
  - exists (r1 ++ r2). now rewrite R2, R1, app_assoc.
  - exists (v2 ++ v1). now rewrite V2, V1, app_assoc.
Qed.

Section Run.

Context {soup : Type}.
Variable extract_chapter_title : soup -> str.
Variable extract_main_content : soup -> option str * soup.
Variable extract_next_page : soup -> str -> result (option str).
Variable urljoin : str -> str -> result str.
Variable web : str -> reply soup.

#[local] Abbreviation process_page :=
  (process_page extract_chapter_title extract_main_content
                extract_next_page urljoin web).
#[local] Abbreviation walk :=
  (walk extract_chapter_title extract_main_content
        extract_next_page urljoin web).
#[local] Abbreviation download_novel :=
  (download_novel extract_chapter_title extract_main_content
                  extract_next_page urljoin web).
#[local] Abbreviation main :=
  (main extract_chapter_title extract_main_content
        extract_next_page urljoin web).

(** What one call of [process_page] does to the machine: nothing at all
    for a visited target; else one more target visited, one more request,
    and the file at most longer. *)
Lemma process_page_shape (url : pyval) (m : machine) :
  (member url (visited_urls (self m)) = true
   /\ process_page url m = (Done (PyBool true), m))
  \/ (member url (visited_urls (self m)) = false
      /\ visited_urls (self (snd (process_page url m)))
         = url :: visited_urls (self m)
      /\ requests (snd (process_page url m)) = requests m ++ [url]
      /\ exists written, disk (snd (process_page url m)) = disk m ++ written).
Proof.
  unfold Walker.process_page. run_monad.
  destruct (member url (visited_urls (self m))) eqn:Hv; [left; auto|].
  right. split; [reflexivity|]. simpl.
  destruct (session_get web url) as [status page|e|]; simpl;
    try (repeat split; trivial; exists []; now rewrite app_nil_r).
  destruct (extract_main_content page) as [[[|c text]|] page']; simpl;
    try (repeat split; trivial; exists []; now rewrite app_nil_r).
  unfold accept_page. run_monad. simpl.
  destruct (differs _ _).
  - rewrite save_current_chapter_spec. simpl.
    destruct (extract_next_page page' (show url)) as [[n|]|e];
      [destruct (truthy n && negb (is_absolute n));
       [destruct (urljoin (show url) n)|]| |];
      simpl; repeat split; trivial; eexists; reflexivity.
  - destruct (extract_next_page page' (show url)) as [[n|]|e];
      [destruct (truthy n && negb (is_absolute n));
       [destruct (urljoin (show url) n)|]| |];
      simpl; repeat split; trivial; exists []; now rewrite app_nil_r.
Qed.

Lemma process_page_grows (url : pyval) (m : machine) :
  grows m (snd (process_page url m)).
Proof.
  destruct (process_page_shape url m) as [[_ ->]|(_ & V & R & D)].
  - apply grows_refl.
  - repeat split; [exact D|now exists [url]|now exists [url]].
Qed.

Lemma process_page_asked_once (url : pyval) (m : machine) :
  asked_once m -> asked_once (snd (process_page url m)).
Proof.
  intros [Hnd Hin].
  destruct (process_page_shape url m) as [[_ ->]|(Hv & V & R & _)];
    [now split|].
  split.
  - rewrite R. apply NoDup_app; [exact Hnd|repeat constructor; intros []|].
    intros r Hr [<-|[]]. apply Hin in Hr. congruence.
  - intros r. rewrite R, V, in_app_iff. simpl.
    intros [Hr|[<-|[]]].
    + rewrite (Hin r Hr). apply orb_true_r.
    + now rewrite pyval_eqb_refl.
Qed.

Lemma walk_keeps (P : machine -> Prop) :
  (forall url m, P m -> P (snd (process_page url m))) ->
  forall (fuel : nat) (v : pyval) (m : machine),
    P m -> P (snd (walk fuel v m)).
Proof.
  intros Hstep. induction fuel as [|fuel IH]; intros v m Hm; simpl;
    destruct (is_true v); trivial.
  unfold bind. specialize (Hstep v m Hm).
  destruct (process_page v m) as [[next| |] m1]; simpl in *; trivial.
  now apply IH.
Qed.

(** The walk only adds: to the file, to the requests made, to the targets
    visited.  What is in the file is never changed or taken back. *)
Theorem walk_only_appends (fuel : nat) (v : pyval) (m : machine) :
  grows m (snd (walk fuel v m)).
Proof.
  apply (walk_keeps (grows m)); [|apply grows_refl].
  intros url m1 H. eapply grows_trans; [exact H|apply process_page_grows].
Qed.

Lemma walk_asked_once (fuel : nat) (v : pyval) (m : machine) :
  asked_once m -> asked_once (snd (walk fuel v m)).
Proof. apply walk_keeps. intros url m1. apply process_page_asked_once. Qed.

Lemma bind_snd_keeps {A B : Type} (P : machine -> Prop)
  (c : M A) (k : A -> M B) (m : machine) :
  P (snd (c m)) -> (forall a m1, P m1 -> P (snd (k a m1))) ->
  P (snd (bind c k m)).
Proof.
  unfold bind. intros Hc Hk.
  destruct (c m) as [[a| |] m1]; simpl in *; auto.
Qed.

Lemma except_interrupt_keeps (P : machine -> Prop) (c h : M unit) (m : machine) :
  P (snd (c m)) -> (forall m1, P m1 -> P (snd (h m1))) ->
  P (snd (except_interrupt c h m)).
Proof.
  unfold except_interrupt. intros Hc Hh.
  destruct (c m) as [[a| |] m1]; simpl in *; auto.
Qed.

Lemma download_novel_keeps (P : machine -> Prop) (fuel : nat) (url : str)
  (m : machine) :
  (forall u m1, P m1 -> P (snd (process_page u m1))) ->
  (forall m1, P m1 -> P (snd (save_current_chapter m1))) ->
  (forall l m1, P m1 -> P (snd (print l m1))) ->
  P (snd (truncate m)) ->
  P (snd (download_novel fuel url m)).
Proof.
  intros Hpage Hsave Hprint Hm. unfold Walker.download_novel.
  apply bind_snd_keeps; [exact Hm|]. intros _ m1 H1.
  apply bind_snd_keeps; [now apply walk_keeps|]. intros _ m2 H2.
  apply bind_snd_keeps; [now apply Hsave|]. intros _ m3 H3.
  apply bind_snd_keeps; [exact H3|]. intros nd m4 H4. now apply Hprint.
Qed.

(** The program, started on a machine that has just booted. *)
Lemma main_from_boot (fuel : nat) (url old : str) :
  main fuel url (boot old)
  = bind (except_interrupt (download_novel fuel url) (print UserInterrupt))
         (fun _ => print Elapsed)
         {| self := init; disk := old; console := [Starting url];
            requests := [] |}.
Proof. reflexivity. Qed.

(** In a run of the program no target is requested twice, however the
    run ends. *)
Theorem main_requests_each_url_once (fuel : nat) (url old : str) :
  NoDup (requests (snd (main fuel url (boot old)))).
Proof.
  assert (HP : asked_once (snd (main fuel url (boot old)))); [|exact (proj1 HP)].
  rewrite main_from_boot.
  apply bind_snd_keeps; [|intros _ m2 H2; exact H2].
  apply except_interrupt_keeps; [|intros m2 H2; exact H2].
  apply download_novel_keeps.
  - intros u m1. apply process_page_asked_once.
  - intros m1 H. now rewrite save_current_chapter_spec.
  - intros l m1 H. exact H.
  - split; [constructor|intros r []].
Qed.

(** The program never ends by the interrupt: it returns, with the line of
    the elapsed time as the last one on the console (or the model's bound
    was too small). *)
Theorem main_catches_interrupt (fuel : nat) (url : str) (m : machine) :
  match fst (main fuel url m) with
  | Done _ => last_line (snd (main fuel url m)) = Some Elapsed
  | KeyboardInterrupt => False
  | OutOfFuel => True
  end.
Proof.
  unfold Walker.main, bind, except_interrupt, print, put_self. simpl.
  match goal with
  | |- context [Walker.download_novel ?a ?b ?c ?d ?e ?f ?u ?mm] =>
      destruct (Walker.download_novel a b c d e f u mm) as [[[]| |] m2]
  end; simpl; trivial; unfold last_line; simpl; now rewrite !rev_app_distr.
Qed.

#[local] Abbreviation content_of := (content_of extract_main_content).
#[local] Abbreviation link_of :=
  (link_of extract_main_content extract_next_page urljoin).
#[local] Abbreviation target_of :=
  (target_of extract_main_content extract_next_page urljoin).
#[local] Abbreviation halts := (halts extract_main_content web).
#[local] Abbreviation chain :=
  (chain extract_chapter_title extract_main_content extract_next_page
         urljoin web).

(** A page in which no content is found ends the walk: one line on the
    console with its URL, and the chapters and the file are as they
    were. *)
Theorem walk_ends_when_no_content
  (m : machine) (u : str) (status : N) (page : soup) (fuel : nat) :
  truthy u = true ->
  member (PyStr u) (visited_urls (self m)) = false ->
  web u = Response status page ->
  content_of page = None ->
  walk (S fuel) (PyStr u) m
  = (Done tt,
     {| self := {| visited_urls := PyStr u :: visited_urls (self m);
                   current_chapter := current_chapter (self m);
                   chapter_content := chapter_content (self m);
                   chapter_count := chapter_count (self m) |};
        disk := disk m;
        console := console m ++ [NoContent (PyStr u)];
        requests := requests m ++ [PyStr u] |}).
Proof.
  intros Ht Hv Hw Hc.
  rewrite (walk_step extract_chapter_title extract_main_content
             extract_next_page urljoin web) by exact Ht.
  rewrite (process_page_no_content extract_chapter_title extract_main_content
             extract_next_page urljoin web m u status page Hv Hw Hc).
  now apply walk_stops.
Qed.


(** ** The chapter count *)

Let walk_S := walk_step extract_chapter_title extract_main_content
                        extract_next_page urljoin web.
Let walk_end := walk_stops extract_chapter_title extract_main_content
                           extract_next_page urljoin web.

Lemma merge_length (t : str) (a b : list str) (g : list chapter) :
  length (merge t a g) = length (merge t b g).
Proof.
  destruct g as [|[t' fs] more]; simpl; [reflexivity|].
  now destruct (eqb t t').
Qed.

Lemma process_page_counts (m : machine) (u : str) status (page : soup) (c : str) :
  member (PyStr u) (visited_urls (self m)) = false ->
  web u = Response status page ->
  content_of page = Some c ->
  exists m1,
    process_page (PyStr u) m = (Done (target_of u page), m1)
    /\ visited_urls (self m1) = PyStr u :: visited_urls (self m)
    /\ current_chapter (self m1) = Some (extract_chapter_title page)
    /\ chapter_count (self m1)
       = chapter_count (self m)
         + if differs (extract_chapter_title page) (current_chapter (self m))
           then 1 else 0.
Proof.
  intros Hv Hw Hc.
  unfold Walker.process_page, WalkerSpec.target_of, WalkerSpec.link_of.
  unfold WalkerSpec.content_of in Hc.
  destruct (extract_main_content page) as [content page'] eqn:E.
  simpl in Hc |- *.
  destruct content as [[|x text]|]; try discriminate.
  injection Hc as <-.
  run_monad. rewrite Hv. simpl. rewrite Hw, E.
  unfold accept_page. run_monad. simpl.
  destruct (differs (extract_chapter_title page) (current_chapter (self m))) eqn:D.
  - rewrite save_current_chapter_spec. simpl.
    destruct (extract_next_page page' u) as [[n|]|e];
      [destruct (truthy n && negb (is_absolute n)); [destruct (urljoin u n)|]| |];
      (eexists; split; [reflexivity|]; simpl; auto).
  - assert (Hcur : current_chapter (self m) = Some (extract_chapter_title page)).
    { unfold differs in D. destruct (current_chapter (self m)) as [t|]; [|discriminate].
      apply negb_false_iff, eqb_eq in D. now subst. }
    destruct (extract_next_page page' u) as [[n|]|e];
      [destruct (truthy n && negb (is_absolute n)); [destruct (urljoin u n)|]| |];
      (eexists; split; [reflexivity|]; simpl; auto using Nat.add_0_r).
Qed.

Lemma halts_walk_count (visited : list pyval) (v : pyval) :
  halts visited v ->
  member (PyBool true) visited = false ->
  forall (m : machine) (fuel : nat),
    visited_urls (self m) = visited -> 2 <= fuel ->
    exists m',
      walk fuel v m = (Done tt, m')
      /\ current_chapter (self m') = current_chapter (self m)
      /\ chapter_count (self m') = chapter_count (self m).
Proof.
  intros H Htrue m fuel Hm Hfuel.
  destruct fuel as [|[|fuel]]; try lia.
  destruct H as [v Hv|u Hu Hin|u e Hu Hin Hw|u status page Hu Hin Hw Hc].
  - exists m. now rewrite walk_end.
  - assert (P : process_page (PyStr u) m = (Done (PyBool true), m)).
    { unfold Walker.process_page. run_monad. now rewrite Hm, Hin. }
    rewrite walk_S by exact Hu. rewrite P, walk_S by reflexivity.
    erewrite (process_page_raises extract_chapter_title extract_main_content
                extract_next_page urljoin web m (PyBool true))
      by (first [rewrite Hm; exact Htrue | reflexivity]).
    eexists. rewrite walk_end by reflexivity. simpl. auto.
  - rewrite walk_S by exact Hu.
    rewrite (process_page_raises extract_chapter_title extract_main_content
               extract_next_page urljoin web m (PyStr u) e)
      by (rewrite ?Hm; trivial).
    eexists. rewrite walk_end by reflexivity. simpl. auto.
  - rewrite walk_S by exact Hu.
    rewrite (process_page_no_content extract_chapter_title extract_main_content
               extract_next_page urljoin web m u status page)
      by (rewrite ?Hm; trivial).
    eexists. rewrite walk_end by reflexivity. simpl. auto.
Qed.

Lemma walk_count (visited : list pyval) (v : pyval) (pages : list (str * str)) :
  chain visited v pages ->
  member (PyBool true) visited = false ->
  forall (m : machine) (fuel : nat),
    visited_urls (self m) = visited ->
    length pages + 2 <= fuel ->
    exists m',
      walk fuel v m = (Done tt, m')
      /\ chapter_count (self m') + opened (self m)
         = chapter_count (self m) + length (pending (self m) pages).
Proof.
  induction 1 as [visited v Hh|visited u status page c pages Hu Hin Hw Hc Hch IH];
    intros Htrue m fuel Hm Hfuel.
  - destruct (halts_walk_count visited v Hh Htrue m fuel Hm Hfuel)
      as (m' & Hwalk & Hcur & Hcount).
    exists m'. split; [exact Hwalk|]. rewrite Hcount.
    unfold opened, pending. now destruct (current_chapter (self m)).
  - simpl in Hfuel. destruct fuel as [|fuel]; [lia|].
    subst visited.
    destruct (process_page_counts m u status page c Hin Hw Hc)
      as (m1 & Hp & Hv1 & Hcur1 & Hcount1).
    destruct (IH Htrue m1 fuel Hv1 ltac:(lia)) as (m' & Hwalk & Hcount).
    exists m'. split.
    + rewrite walk_S by exact Hu. rewrite Hp. exact Hwalk.
    + clear Hwalk IH. unfold opened, pending in *. rewrite Hcur1 in Hcount.
      simpl group. rewrite Hcount1 in Hcount.
      rewrite (merge_length _ _ [c]) in Hcount.
      destruct (current_chapter (self m)) as [t0|]; simpl in Hcount.
      * destruct (eqb (extract_chapter_title page) t0) eqn:E; simpl in Hcount.
        -- apply eqb_eq in E. subst t0. rewrite merge_merge.
           rewrite (merge_length _ _ [c]). lia.
        -- assert (E' : eqb t0 (extract_chapter_title page) = false).
           { apply eqb_neq. apply eqb_neq in E. congruence. }
           rewrite (merge_other _ _ _ _ _ E'). simpl. lia.
      * lia.
Qed.


End Run.

(** ** The walk over a finite web comes to an end *)

Lemma serve_unknown {soup : Type} (pages : list (str * reply soup)) (u : str) :
  (forall r, ~ In (u, r) pages) ->
  Sketch.serve pages u = Raises (lit "connection refused").
Proof.
  induction pages as [|[k r] rest IH]; simpl; [reflexivity|].
  intros H. destruct (eqb k u) eqn:E.
  - apply eqb_eq in E. subst k. exfalso. apply (H r). now left.
  - apply IH. intros r' Hr'. apply (H r'). now right.
Qed.

Lemma serve_known {soup : Type} (pages : list (str * reply soup)) (u : str)
  (status : N) (page : soup) :
  Sketch.serve pages u = Response status page -> exists r, In (u, r) pages.
Proof.
  induction pages as [|[k r] rest IH]; simpl; [discriminate|].
  destruct (eqb k u) eqn:E.
  - apply eqb_eq in E. subst k. intros _. exists r. now left.
  - intros H. destruct (IH H) as [r' Hr']. exists r'. now right.
Qed.

Lemma unvisited_le {soup : Type} (pages : list (str * reply soup))
  (x : pyval) (visited : list pyval) :
  unvisited pages (x :: visited) <= unvisited pages visited.
Proof.
  unfold unvisited. induction pages as [|[k r] rest IH]; simpl in *; [lia|].
  match goal with |- context [negb (?a || _)] => destruct a end;
    destruct (member (PyStr k) visited); simpl; lia.
Qed.

Lemma unvisited_nil {soup : Type} (pages : list (str * reply soup)) :
  unvisited pages [] = length pages.
Proof.
  unfold unvisited. induction pages as [|p rest IH]; simpl in *; [reflexivity|].
  now rewrite IH.
Qed.

Lemma unvisited_lt {soup : Type} (pages : list (str * reply soup))
  (u : str) (r : reply soup) (visited : list pyval) :
  In (u, r) pages ->
  member (PyStr u) visited = false ->
  unvisited pages (PyStr u :: visited) < unvisited pages visited.
Proof.
  induction pages as [|[k r0] rest IH]; [intros []|].
  intros [E|Hin] Hv.
  - injection E as -> ->.
    pose proof (unvisited_le rest (PyStr u) visited) as L.
    unfold unvisited in *. simpl in *. rewrite eqb_refl, Hv. simpl. lia.
  - specialize (IH Hin Hv). unfold unvisited in *. simpl in *.
    destruct (eqb k u); simpl; destruct (member (PyStr k) visited); simpl; lia.
Qed.

Section FiniteWeb.

Context {soup : Type}.
Variable extract_chapter_title : soup -> str.
Variable extract_main_content : soup -> option str * soup.
Variable extract_next_page : soup -> str -> result (option str).
Variable urljoin : str -> str -> result str.
Variable pages : list (str * reply soup).

#[local] Abbreviation process_page :=
  (process_page extract_chapter_title extract_main_content
                extract_next_page urljoin (Sketch.serve pages)).
#[local] Abbreviation walk :=
  (walk extract_chapter_title extract_main_content
        extract_next_page urljoin (Sketch.serve pages)).
#[local] Abbreviation download_novel :=
  (download_novel extract_chapter_title extract_main_content
                  extract_next_page urljoin (Sketch.serve pages)).

Let walk_S := walk_step extract_chapter_title extract_main_content
                        extract_next_page urljoin (Sketch.serve pages).
Let walk_end := walk_stops extract_chapter_title extract_main_content
                           extract_next_page urljoin (Sketch.serve pages).

(** After the target [True] the walk is over in one round. *)
Lemma walk_true_finishes (fuel : nat) (m : machine) :
  member (PyBool true) (visited_urls (self m)) = false ->
  finished (fst (walk (S fuel) (PyBool true) m)).
Proof.
  intros Htrue. rewrite walk_S by reflexivity.
  erewrite (process_page_raises extract_chapter_title extract_main_content
              extract_next_page urljoin (Sketch.serve pages) m (PyBool true))
    by (first [exact Htrue | reflexivity]).
  now rewrite walk_end.
Qed.

Lemma walk_finishes (fuel : nat) : forall (v : pyval) (m : machine),
  member (PyBool true) (visited_urls (self m)) = false ->
  unvisited pages (visited_urls (self m)) + 2 <= fuel ->
  finished (fst (walk fuel v m)).
Proof.
  induction fuel as [|fuel IH]; intros v m Htrue Hfuel; [lia|].
  destruct (is_true v) eqn:Hv; [|now rewrite walk_end].
  destruct v as [|[|]|u]; try discriminate.
  - now apply walk_true_finishes.
  - destruct (member (PyStr u) (visited_urls (self m))) eqn:Hin.
    + rewrite walk_S by exact Hv.
      assert (P : process_page (PyStr u) m = (Done (PyBool true), m)).
      { unfold Walker.process_page. run_monad. now rewrite Hin. }
      rewrite P. destruct fuel as [|fuel]; [lia|].
      now apply walk_true_finishes.
    + rewrite walk_S by exact Hv.
      destruct (Sketch.serve pages u) as [status page|e|] eqn:Hw.
      * destruct (content_of extract_main_content page) as [c|] eqn:Hc.
        -- destruct (process_page_accepts extract_chapter_title
                       extract_main_content extract_next_page urljoin
                       (Sketch.serve pages) m u status page c Hin Hw Hc)
             as (m1 & Hp & Hv1 & _).
           rewrite Hp. apply IH; rewrite Hv1.
           ++ exact Htrue.
           ++ destruct (serve_known pages u status page Hw) as [r Hr].
              pose proof (unvisited_lt pages u r _ Hr Hin). lia.
        -- rewrite (process_page_no_content extract_chapter_title
                      extract_main_content extract_next_page urljoin
                      (Sketch.serve pages) m u status page Hin Hw Hc).
           now rewrite walk_end.
      * rewrite (process_page_raises extract_chapter_title extract_main_content
                   extract_next_page urljoin (Sketch.serve pages) m (PyStr u) e
                   Hin Hw).
        now rewrite walk_end.
      * assert (P : fst (process_page (PyStr u) m) = KeyboardInterrupt).
        { unfold Walker.process_page. run_monad. rewrite Hin. simpl.
          now rewrite Hw. }
        destruct (process_page (PyStr u) m) as [[next| |] m1];
          try discriminate. exact I.
Qed.

(** Over a web of finitely many pages the download comes to an end,
    whatever the pages link to: the loop makes at most two rounds more
    than there are pages. *)
Theorem download_novel_finishes (fuel : nat) (start : str) (m : machine) :
  length pages + 2 <= fuel ->
  visited_urls (self m) = [] ->
  finished (fst (download_novel fuel start m)).
Proof.
  intros Hfuel Hfresh. unfold Walker.download_novel, bind, truncate. simpl.
  match goal with
  | |- context [Walker.walk ?a ?b ?c ?d ?e ?f ?v ?mm] =>
      pose proof (walk_finishes f v mm) as W;
      destruct (Walker.walk a b c d e f v mm) as [[[]| |] m1]
  end; simpl in *.
  - now rewrite save_current_chapter_spec.
  - exact I.
  - apply W; rewrite Hfresh; [reflexivity|].
    rewrite unvisited_nil. exact Hfuel.
Qed.

End FiniteWeb.

(** ** The theorems on sample webs *)

Import Sketch Samples MoreSamples.

(** The second page has no content. *)
Lemma walk_ends_when_no_content_witness :
  truthy url2 = true
  /\ member (PyStr url2) (visited_urls (self open_chapter)) = false
  /\ serve [(url2, Response 200 blank_page)] url2 = Response 200 blank_page
  /\ content_of (fun p => (content p, p)) blank_page = None
  /\ Walker.walk title (fun p => (content p, p)) (fun p _ => Ok (next p)) no_join
                 (serve [(url2, Response 200 blank_page)]) 1 (PyStr url2)
                 open_chapter
     = (Done tt,
        {| self := {| visited_urls := [PyStr url2; PyStr url1];
                      current_chapter := Some (lit "Chapter 1");
                      chapter_content := [lit "AAA"];
                      chapter_count := 1 |};
           disk := [];
           console := [NoContent (PyStr url2)];
           requests := [PyStr url1; PyStr url2] |}).
Proof.
  split; [reflexivity|]. split; [reflexivity|]. split; [reflexivity|].
  split; [reflexivity|].
  exact (walk_ends_when_no_content
           title (fun p => (content p, p)) (fun p _ => Ok (next p)) no_join
           (serve [(url2, Response 200 blank_page)]) open_chapter url2 200
           blank_page 0 eq_refl eq_refl eq_refl eq_refl).
Defined.


(** The same on pages as they are parsed: the second page is read, its
    link is refused, and the run ends with both chapters in the file. *)
Example run_on_bad_link_keeps_content :
  fst (run join_host web_bad_link 5 url1 (boot [])) = Done tt
  /\ console (snd (run join_host web_bad_link 5 url1 (boot [])))
     = [Starting url1; Saved (lit "Chapter 1");
        Failed (PyStr url2) (lit "Invalid IPv6 URL");
        Saved (lit "Chapter 2"); Finished 2; Elapsed]
  /\ requests (snd (run join_host web_bad_link 5 url1 (boot [])))
     = [PyStr url1; PyStr url2]
  /\ disk (snd (run join_host web_bad_link 5 url1 (boot [])))
     = lit "Chapter 1" ++ [LF] ++ repeat 0x78%N 101 ++ [LF]
       ++ lit "Chapter 2" ++ [LF] ++ repeat 0x78%N 102 ++ [LF].
Proof. repeat split; vm_compute; reflexivity. Qed.

(** A chain of two pages that ends where the link of the second page
    raises. *)
Lemma bad_link_pages_chain :
  chain title (fun p => (content p, p)) (fun p _ => Ok (next p)) join_host
        (serve bad_link_pages) [] (PyStr url1)
        [([], lit "AAA"); (lit "Chapter 2", lit "BBB")].
Proof.
  apply (@chain_page _ title (fun p => (content p, p)) (fun p _ => Ok (next p))
           join_host (serve bad_link_pages) [] url1 200
           {| title := []; content := Some (lit "AAA"); next := Some url2 |});
    try reflexivity.
  apply (@chain_page _ title (fun p => (content p, p)) (fun p _ => Ok (next p))
           join_host (serve bad_link_pages) [PyStr url1] url2 200
           bad_link_page); try reflexivity.
  apply chain_end. apply halts_no_target. reflexivity.
Defined.


(** Two pages that link to each other: the walk ends. *)
Lemma download_novel_finishes_witness :
  length two_way_pages + 2 <= 4
  /\ visited_urls (self (boot [])) = []
  /\ finished (fst (Sketch.download_novel no_join (serve two_way_pages) 4 url1
                      (boot []))).
Proof.
  split; [apply le_n|]. split; [reflexivity|].
  exact (download_novel_finishes
           title (fun p => (content p, p)) (fun p _ => Ok (next p)) no_join
           two_way_pages 4 url1 (boot []) (le_n 4) eq_refl).
Defined.

End RunFacts.

(* ================================================================== *)
(** * The next link by the URL, for every page number *)
(* ================================================================== *)

Module UrlFacts.
Import PyStr Bs4 Extract UrlSpec StrFacts.

(** ** Decimal numbers, printed and read back *)

Lemma decimal_value_ascii :
  decimal_value 0x30 = Some 0%N /\ decimal_value 0x31 = Some 1%N
  /\ decimal_value 0x32 = Some 2%N /\ decimal_value 0x33 = Some 3%N
  /\ decimal_value 0x34 = Some 4%N /\ decimal_value 0x35 = Some 5%N
  /\ decimal_value 0x36 = Some 6%N /\ decimal_value 0x37 = Some 7%N
  /\ decimal_value 0x38 = Some 8%N /\ decimal_value 0x39 = Some 9%N.
Proof. repeat split; vm_compute; reflexivity. Qed.

Lemma number_of_fold (s : str) : number_of s = fold_left read_digit s 0%N.
Proof. reflexivity. Qed.

Ltac digit_facts :=
  destruct decimal_value_ascii as (D0 & D1 & D2 & D3 & D4 & D5 & D6 & D7 & D8 & D9).

Lemma read_acc (u : Decimal.uint) : forall acc : positive,
  fold_left read_digit (uint_codes u) (N.pos acc) = N.pos (Pos.of_uint_acc u acc).
Proof.
  digit_facts.
  induction u as [|u IH|u IH|u IH|u IH|u IH|u IH|u IH|u IH|u IH|u IH];
    intros acc; [reflexivity|..]; cbn [uint_codes fold_left Pos.of_uint_acc];
    rewrite <- IH; f_equal; unfold read_digit;
    rewrite ?D0, ?D1, ?D2, ?D3, ?D4, ?D5, ?D6, ?D7, ?D8, ?D9; lia.
Qed.

Lemma number_of_uint (u : Decimal.uint) : number_of (uint_codes u) = N.of_uint u.
Proof.
  digit_facts. rewrite number_of_fold. unfold N.of_uint.
  induction u as [|u IH|u IH|u IH|u IH|u IH|u IH|u IH|u IH|u IH|u IH];
    [reflexivity|..]; cbn [uint_codes fold_left Pos.of_uint];
    unfold read_digit at 2;
    rewrite ?D0, ?D1, ?D2, ?D3, ?D4, ?D5, ?D6, ?D7, ?D8, ?D9;
    [exact IH|..]; apply read_acc.
Qed.

(** [int(str(n)) == n] *)
Lemma number_of_digits_of (n : N) : number_of (digits_of n) = n.
Proof. unfold digits_of. rewrite number_of_uint. apply DecimalN.Unsigned.of_to. Qed.

(** ** How many digits a number has *)

Lemma decimal_value_lt (c d : N) : decimal_value c = Some d -> (d < 10)%N.
Proof.
  unfold decimal_value.
  destruct (List.find _ decimal_zeros) as [z|] eqn:F; [|discriminate].
  apply find_some in F as [_ F]. apply andb_true_iff in F as [F1 F2].
  apply N.leb_le in F1. apply N.ltb_lt in F2.
  intros H. injection H as <-. lia.
Qed.

Lemma read_digit_bounds (acc c : N) :
  (10 * acc <= read_digit acc c <= 10 * acc + 9)%N.
Proof.
  unfold read_digit. destruct (decimal_value c) as [d|] eqn:E; [|lia].
  apply decimal_value_lt in E. lia.
Qed.

(** Digits read after [acc] leave it in front: the number read lies
    between [acc] followed by zeros and [acc + 1] followed by zeros. *)
Lemma read_bounds (s : str) : forall acc : N,
  (acc * 10 ^ N.of_nat (length s) <= fold_left read_digit s acc
   < (acc + 1) * 10 ^ N.of_nat (length s))%N.
Proof.
  induction s as [|c s IH]; intros acc.
  - simpl. lia.
  - cbn [length fold_left]. rewrite Nat2N.inj_succ, N.pow_succ_r'.
    specialize (IH (read_digit acc c)).
    pose proof (read_digit_bounds acc c) as B.
    set (P := (10 ^ N.of_nat (length s))%N) in *.
    set (r := read_digit acc c) in *.
    set (v := fold_left read_digit s r) in *.
    clearbody P r v. nia.
Qed.

Lemma to_uint_unorm (p : positive) :
  Decimal.unorm (Pos.to_uint p) = Pos.to_uint p.
Proof.
  rewrite <- DecimalPos.Unsigned.to_of, DecimalPos.Unsigned.of_to.
  reflexivity.
Qed.

Lemma unorm_head (u : Decimal.uint) :
  Decimal.unorm u = u -> u <> Decimal.zero ->
  match u with Decimal.Nil | Decimal.D0 _ => False | _ => True end.
Proof.
  destruct u as [|r|r|r|r|r|r|r|r|r|r]; trivial; [discriminate|].
  rewrite DecimalFacts.unorm_D0. intros H Hz.
  destruct r as [|r|r|r|r|r|r|r|r|r|r]; [now apply Hz|..];
    match type of H with
    | Decimal.unorm ?d = _ =>
        assert (Hd : d <> Decimal.Nil) by discriminate;
        pose proof (DecimalFacts.nb_digits_unorm d Hd) as L;
        rewrite H in L; simpl in L; lia
    end.
Qed.

(** A number above zero is printed with a first digit above zero. *)
Lemma digits_of_head (n : N) : (0 < n)%N ->
  exists c digits d,
    digits_of n = c :: digits /\ decimal_value c = Some d /\ (1 <= d)%N.
Proof.
  digit_facts. destruct n as [|p]; [lia|]. intros _.
  unfold digits_of. simpl N.to_uint.
  pose proof (unorm_head _ (to_uint_unorm p)
                (DecimalPos.Unsigned.to_uint_nonzero p)) as H.
  destruct (Pos.to_uint p) as [|r|r|r|r|r|r|r|r|r|r]; try contradiction;
    simpl; eexists _, _, _; (split; [reflexivity|]);
    (split; [eassumption|lia]).
Qed.

(** A number has at most [k] digits when it is below the [k]-th power of
    ten, and only then. *)
Lemma digits_le_iff (n : N) (k : nat) : 1 <= k ->
  length (digits_of n) <= k <-> (n < 10 ^ N.of_nat k)%N.
Proof.
  intros Hk.
  pose proof (read_bounds (digits_of n) 0) as [_ Hup].
  rewrite <- number_of_fold, number_of_digits_of, N.mul_1_l in Hup.
  split.
  - intros L. eapply N.lt_le_trans; [exact Hup|].
    apply N.pow_le_mono_r; lia.
  - intros Hn. destruct (N.eq_dec n 0) as [->|Hpos]; [exact Hk|].
    destruct (digits_of_head n ltac:(lia)) as (c & digits & d & E & Hc & Hd).
    pose proof (number_of_digits_of n) as V. rewrite E, number_of_fold in V.
    cbn [fold_left] in V.
    pose proof (read_bounds digits (read_digit 0 c)) as [Hlow _].
    rewrite V in Hlow. unfold read_digit in Hlow. rewrite Hc in Hlow.
    rewrite E. cbn [length].
    assert (P : (10 ^ N.of_nat (length digits) < 10 ^ N.of_nat k)%N).
    { eapply N.le_lt_trans; [|exact Hn].
      eapply N.le_trans; [|exact Hlow].
      set (Q := (10 ^ N.of_nat (length digits))%N). nia. }
    apply N.pow_lt_mono_r_iff in P; lia.
Qed.

Lemma uint_codes_decimal (u : Decimal.uint) :
  Forall (fun c => is_decimal c = true) (uint_codes u).
Proof.
  induction u; simpl; constructor; trivial; vm_compute; reflexivity.
Qed.

Lemma digits_of_not_empty (n : N) : exists c digits, digits_of n = c :: digits.
Proof.
  unfold digits_of. destruct n as [|p]; [now eexists _, _|].
  simpl. pose proof (DecimalPos.Unsigned.to_uint_nonnil p) as H.
  destruct (Pos.to_uint p); [contradiction|..]; simpl; now eexists _, _.
Qed.

(** ** Where the pattern can match *)

Lemma lit_page_eq : lit "page=" = [0x70; 0x61; 0x67; 0x65; 0x3D]%N.
Proof. reflexivity. Qed.

Lemma no_equals_iff (s : str) :
  existsb (fun c => (c =? EQUALS)%N) s = false <-> no_equals s.
Proof.
  unfold no_equals. induction s as [|c r IH]; simpl.
  - split; [constructor|reflexivity].
  - rewrite orb_false_iff, IH. split.
    + intros [? ?]. now constructor.
    + intros H. inversion H. now split.
Qed.

Lemma startswith_nth (p s : str) :
  startswith p s = true ->
  forall i c, nth_error p i = Some c -> nth_error s i = Some c.
Proof.
  revert s. induction p as [|x p IH]; intros s H i c Hi.
  - now destruct i.
  - destruct s as [|y s]; [discriminate|].
    cbn [startswith] in H. apply andb_true_iff in H as [Hx Hr].
    apply N.eqb_eq in Hx. subst y.
    destruct i as [|i]; [exact Hi|]. simpl in *. now apply IH.
Qed.

Lemma ci_startswith_nth (p s : str) :
  ci_startswith p s = true ->
  forall i c, nth_error p i = Some c ->
              exists c', nth_error s i = Some c' /\ ci_eqb c c' = true.
Proof.
  revert s. induction p as [|x p IH]; intros s H i c Hi.
  - now destruct i.
  - destruct s as [|y s]; [discriminate|].
    cbn [ci_startswith] in H. apply andb_true_iff in H as [Hx Hr].
    destruct i as [|i].
    + injection Hi as <-. now exists y.
    + simpl in *. now apply IH.
Qed.

Lemma ci_equals (c : N) : ci_eqb EQUALS c = true -> c = EQUALS.
Proof.
  change (ci_eqb EQUALS c) with (c =? EQUALS)%N. apply N.eqb_eq.
Qed.

Lemma ci_page_at (s : str) :
  ci_startswith (lit "page=") s = true -> nth_error s 4 = Some EQUALS.
Proof.
  intros H. destruct (ci_startswith_nth _ _ H 4 EQUALS eq_refl) as (c & Hc & E).
  apply ci_equals in E. now subst.
Qed.

Lemma ci_p_at (s : str) :
  ci_startswith (lit "p=") s = true -> nth_error s 1 = Some EQUALS.
Proof.
  intros H. destruct (ci_startswith_nth _ _ H 1 EQUALS eq_refl) as (c & Hc & E).
  apply ci_equals in E. now subst.
Qed.

Lemma starts_page_at (digits s : str) :
  startswith (lit "page=" ++ digits) s = true -> nth_error s 4 = Some EQUALS.
Proof. intros H. exact (startswith_nth _ _ H 4 EQUALS eq_refl). Qed.

(** Before the parameter, where no equals sign stands, neither the
    fifth nor the second code point from any position is one. *)
Lemma before_param (b tail : str) :
  b <> [] -> no_equals b ->
  nth_error (b ++ lit "page=" ++ tail) 4 <> Some EQUALS
  /\ nth_error (b ++ lit "page=" ++ tail) 1 <> Some EQUALS.
Proof.
  rewrite lit_page_eq. unfold no_equals, EQUALS. intros Hb H.
  destruct b as [|x1 b]; [contradiction|].
  apply Forall_cons_iff in H as [H1 H].
  destruct b as [|x2 b]; [split; discriminate|].
  apply Forall_cons_iff in H as [H2 H].
  assert (N2 : Some x2 <> Some 0x3D%N)
    by (intros E; injection E as ->; discriminate).
  destruct b as [|x3 b]; [split; [discriminate|exact N2]|].
  apply Forall_cons_iff in H as [H3 H].
  destruct b as [|x4 b]; [split; [discriminate|exact N2]|].
  apply Forall_cons_iff in H as [H4 H].
  destruct b as [|x5 b]; [split; [discriminate|exact N2]|].
  apply Forall_cons_iff in H as [H5 H].
  split; [|exact N2]. simpl. intros E. injection E as ->. discriminate.
Qed.

Lemma page_param_at_before (b tail : str) :
  b <> [] -> no_equals b ->
  page_param_at (b ++ lit "page=" ++ tail) = None.
Proof.
  intros Hb H. destruct (before_param b tail Hb H) as [N4 N1].
  unfold page_param_at.
  destruct (ci_startswith (lit "page=") _) eqn:E4;
    [apply ci_page_at in E4; contradiction|].
  destruct (ci_startswith (lit "p=") _) eqn:E1;
    [apply ci_p_at in E1; contradiction|].
  reflexivity.
Qed.

Lemma search_skips (base tail : str) :
  no_equals base ->
  search_page_param (base ++ lit "page=" ++ tail)
  = search_page_param (lit "page=" ++ tail).
Proof.
  induction base as [|c base IH]; intros H; [reflexivity|].
  change ((c :: base) ++ lit "page=" ++ tail)
    with (c :: (base ++ lit "page=" ++ tail)).
  cbn [search_page_param].
  change (c :: (base ++ lit "page=" ++ tail))
    with ((c :: base) ++ lit "page=" ++ tail).
  rewrite page_param_at_before by (trivial; discriminate).
  apply IH. now inversion H.
Qed.

Lemma take_while_digits (digits rest : str) :
  Forall (fun c => is_decimal c = true) digits ->
  digit_first rest = false ->
  take_while is_decimal (digits ++ rest) = digits.
Proof.
  intros Hd Hr. induction Hd as [|c r Hc _ IH]; cbn [app take_while].
  - destruct rest as [|x rest]; [reflexivity|].
    cbn [digit_first] in Hr. cbn [take_while]. now rewrite Hr.
  - now rewrite Hc, IH.
Qed.

Lemma search_finds (n : N) (rest : str) :
  digit_first rest = false ->
  search_page_param (lit "page=" ++ digits_of n ++ rest)
  = Some (lit "page", digits_of n).
Proof.
  intros Hr.
  assert (P : page_param_at (lit "page=" ++ digits_of n ++ rest)
              = Some (lit "page", digits_of n)).
  { rewrite lit_page_eq. unfold page_param_at.
    change (ci_startswith (lit "page=") ([0x70; 0x61; 0x67; 0x65; 0x3D]%N ++ digits_of n ++ rest))
      with true.
    cbn [app skipn firstn].
    rewrite (take_while_digits (digits_of n) rest (uint_codes_decimal _) Hr).
    now destruct (digits_of_not_empty n) as (c & digits & ->). }
  rewrite lit_page_eq in *. cbn [app] in *. cbn [search_page_param].
  now rewrite P.
Qed.

(** ** What [replace] does there *)

Lemma replace_from_skip (old new a r : str) :
  replace_from old new (length a) (a ++ r) = replace_from old new 0 r.
Proof. induction a as [|c a IH]; [reflexivity|]. exact IH. Qed.

Lemma replace_absent (old new r : str) :
  contains old r = false -> replace old new r = r.
Proof.
  unfold replace. induction r as [|c r IH]; [reflexivity|].
  cbn [contains]. intros H. apply orb_false_iff in H as [H1 H2].
  cbn [replace_from]. rewrite H1. f_equal. now apply IH.
Qed.

Lemma startswith_self (a r : str) : startswith a (a ++ r) = true.
Proof.
  induction a as [|c a IH]; [now destruct r|]. simpl. now rewrite N.eqb_refl.
Qed.

Lemma replace_here (old new r : str) :
  old <> [] ->
  replace_from old new 0 (old ++ r) = new ++ replace_from old new 0 r.
Proof.
  destruct old as [|x o]; [contradiction|]. intros _.
  change ((x :: o) ++ r) with (x :: (o ++ r)). cbn [replace_from].
  change (x :: (o ++ r)) with ((x :: o) ++ r). rewrite startswith_self.
  f_equal. replace (length (x :: o) - 1) with (length o) by (simpl; lia).
  apply replace_from_skip.
Qed.

Lemma page_param_not_empty (n : N) : page_param n <> [].
Proof. unfold page_param. rewrite lit_page_eq. discriminate. Qed.

Lemma replace_param (base rest new : str) (n : N) :
  no_equals base ->
  contains (page_param n) rest = false ->
  replace (page_param n) new (base ++ page_param n ++ rest)
  = base ++ new ++ rest.
Proof.
  intros Hb Hr. unfold replace.
  induction base as [|c base IH].
  - cbn [app]. rewrite (replace_here _ _ _ (page_param_not_empty n)).
    f_equal. now apply replace_absent.
  - change ((c :: base) ++ page_param n ++ rest)
      with (c :: (base ++ page_param n ++ rest)).
    cbn [replace_from].
    destruct (startswith (page_param n) (c :: base ++ page_param n ++ rest)) eqn:S.
    + unfold page_param in S. apply starts_page_at in S.
      change (c :: base ++ (lit "page=" ++ digits_of n) ++ rest)
        with ((c :: base) ++ (lit "page=" ++ digits_of n) ++ rest) in S.
      rewrite <- app_assoc in S.
      destruct (before_param (c :: base) (digits_of n ++ rest)) as [N4 _];
        trivial; [discriminate|contradiction].
    + cbn [app]. f_equal. apply IH. now inversion Hb.
Qed.

(** ** The word [page] in the URL *)

Lemma contains_after (p a b : str) :
  contains p b = true -> contains p (a ++ b) = true.
Proof.
  intros H. induction a as [|c a IH]; [exact H|].
  simpl. rewrite IH. apply orb_true_r.
Qed.

Lemma lower_has_page (base tail : str) :
  contains (lit "page") (lower (base ++ lit "page=" ++ tail)) = true.
Proof.
  unfold lower. rewrite flat_map_app. apply contains_after.
  rewrite lit_page_eq. reflexivity.
Qed.

(** ** The increment *)

(** [int] and the f-string, by the size of the number. *)
Lemma int_digits_of (n : N) :
  int (digits_of n)
  = if int_max_str_digits <? length (digits_of n)
    then Exn (lit "Exceeds the limit (4300 digits) for integer string conversion: value has "
              ++ digits_of (N.of_nat (length (digits_of n)))
              ++ lit " digits; use sys.set_int_max_str_digits() to increase the limit")
    else Ok n.
Proof. unfold int. now rewrite number_of_digits_of. Qed.

Lemma too_long_iff (n : N) :
  (int_max_str_digits <? length (digits_of n)) = true
  <-> (10 ^ N.of_nat int_max_str_digits <= n)%N.
Proof.
  rewrite Nat.ltb_lt.
  pose proof (digits_le_iff n int_max_str_digits) as D.
  unfold int_max_str_digits at 1 in D. specialize (D ltac:(lia)). lia.
Qed.

Lemma too_long_eq (n : N) :
  (int_max_str_digits <? length (digits_of n))
  = (10 ^ N.of_nat int_max_str_digits <=? n)%N.
Proof.
  apply eq_true_iff_eq. rewrite too_long_iff, N.leb_le. reflexivity.
Qed.

Lemma next_by_url_param (base rest : str) (n : N) :
  no_equals base -> digit_first rest = false ->
  next_by_url (base ++ page_param n ++ rest)
  = match int (digits_of n) with
    | Ok k =>
        match format_int (k + 1) with
        | Ok printed =>
            Ok (Some (replace (page_param n) (lit "page=" ++ printed)
                              (base ++ page_param n ++ rest)))
        | Exn e => Exn e
        end
    | Exn e => Exn e
    end.
Proof.
  intros Hb Hd. unfold next_by_url, page_param. rewrite <- !app_assoc.
  now rewrite lower_has_page, (search_skips _ _ Hb), (search_finds _ _ Hd).
Qed.

Lemma next_by_url_increments (base rest : str) (n : N) :
  existsb (fun c => (c =? EQUALS)%N) base = false ->
  digit_first rest = false ->
  contains (page_param n) rest = false ->
  ((n + 1 < 10 ^ N.of_nat int_max_str_digits)%N ->
   next_by_url (base ++ page_param n ++ rest)
   = Ok (Some (base ++ page_param (n + 1) ++ rest)))
  /\ ((10 ^ N.of_nat int_max_str_digits <= n + 1)%N ->
      exists e, next_by_url (base ++ page_param n ++ rest) = Exn e).
Proof.
  intros Hb Hd Hc. apply no_equals_iff in Hb.
  rewrite (next_by_url_param _ _ _ Hb Hd), int_digits_of. unfold format_int.
  rewrite too_long_eq.
  destruct (N.leb_spec (10 ^ N.of_nat int_max_str_digits) n) as [L0|L0].
  { split; intros H; [lia|eexists; reflexivity]. }
  cbv beta iota. rewrite too_long_eq.
  destruct (N.leb_spec (10 ^ N.of_nat int_max_str_digits) (n + 1)) as [L1|L1].
  { split; intros H; [lia|eexists; reflexivity]. }
  split; intros H; [|lia].
  do 2 f_equal. change (lit "page=" ++ digits_of (n + 1)) with (page_param (n + 1)).
  now apply replace_param.
Qed.



(** At the limit.  With 4300 nines for the page number, [int] reads the
    number and the f-string refuses to print the next one; with 4301
    nines, [int] refuses to read it. *)
Example extract_next_page_raises_at_limit :
  extract_next_page (document [])
    (lit "http://site/read?page=" ++ repeat 0x39%N 4300)
  = Exn (lit "Exceeds the limit (4300 digits) for integer string conversion; use sys.set_int_max_str_digits() to increase the limit")
  /\ extract_next_page (document [])
       (lit "http://site/read?page=" ++ repeat 0x39%N 4301)
     = Exn (lit "Exceeds the limit (4300 digits) for integer string conversion: value has 4301 digits; use sys.set_int_max_str_digits() to increase the limit").
Proof. split; vm_compute; reflexivity. Qed.

End UrlFacts.

(* ================================================================== *)
(** * What the title normaliser takes away *)
(* ================================================================== *)

Module TitleMore.
Import PyStr Title TitleSpec TitleSpec2 StrFacts TitleFacts.

#[local] Arguments bracket_span : simpl never.
#[local] Arguments page_marker : simpl never.

(** ** The two passes on a string with nothing to match *)

Lemma opener_free_no_span (s : str) :
  existsb is_opener s = false -> free bracket_span s.
Proof.
  induction s as [|c r IH]; simpl; [trivial|].
  intros H. apply orb_false_iff in H as [Hc Hr]. split; [|now apply IH].
  rewrite bracket_span_cons. unfold is_opener in Hc.
  now destruct (closer c).
Qed.

Lemma plain_parts (s : str) :
  plain s = true -> existsb is_opener s = false /\ dashless s.
Proof.
  unfold plain. rewrite andb_true_iff, !negb_true_iff.
  intros [Ho Hd]. split; [exact Ho|now apply dashless_iff].
Qed.

(** A title with no bracket and no dash is only trimmed. *)
Theorem clean_chapter_title_trims_plain_title (s : str) :
  plain s = true -> clean_chapter_title s = strip s.
Proof.
  intros H. destruct (plain_parts s H) as [Ho Hd].
  unfold clean_chapter_title.
  rewrite (sub_free _ _ (opener_free_no_span s Ho)).
  now rewrite (sub_free _ _ (dashless_free s Hd)).
Qed.

(** A title of several words, with white space around it. *)
Lemma clean_chapter_title_trims_plain_title_witness :
  plain (lit "  The Last Stand ") = true
  /\ clean_chapter_title (lit "  The Last Stand ") = lit "The Last Stand".
Proof.
  split; [reflexivity|].
  exact (clean_chapter_title_trims_plain_title (lit "  The Last Stand ") eq_refl).
Defined.

(** ** One match at the end *)

Lemma sub_from_skip (m : str -> option nat) (a r : str) :
  sub_from m (length a) (a ++ r) = sub_from m 0 r.
Proof. induction a as [|c a IH]; [reflexivity|]. exact IH. Qed.

Lemma sub_from_unmatched (m : str -> option nat) (a r : str) :
  (forall c x, In c a -> m (c :: x) = None) ->
  sub_from m 0 (a ++ r) = a ++ sub_from m 0 r.
Proof.
  induction a as [|c a IH]; intros H; [reflexivity|].
  change ((c :: a) ++ r) with (c :: (a ++ r)). cbn [sub_from].
  rewrite (H c (a ++ r) (or_introl eq_refl)). cbn [app]. f_equal.
  apply IH. intros c' x Hin. apply H. now right.
Qed.

Lemma sub_from_whole (m : str -> option nat) (c : N) (tail : str) :
  m (c :: tail) = Some (S (length tail)) -> sub_from m 0 (c :: tail) = [].
Proof.
  intros H. cbn [sub_from]. rewrite H.
  rewrite <- (app_nil_r tail) at 2. now rewrite sub_from_skip.
Qed.

Lemma sub_drops_suffix (m : str -> option nat) (t : str) (c : N) (tail : str) :
  (forall c' x, In c' t -> m (c' :: x) = None) ->
  m (c :: tail) = Some (S (length tail)) ->
  re_sub m (t ++ c :: tail) = t.
Proof.
  intros Ht Hm. unfold re_sub.
  now rewrite (sub_from_unmatched m t _ Ht), (sub_from_whole m c tail Hm), app_nil_r.
Qed.

Lemma no_opener_no_match (t : str) :
  existsb is_opener t = false ->
  forall c x, In c t -> bracket_span (c :: x) = None.
Proof.
  intros H c x Hin. rewrite bracket_span_cons.
  destruct (closer c) eqn:E; [|reflexivity].
  assert (existsb is_opener t = true); [|congruence].
  apply existsb_exists. exists c. split; [exact Hin|].
  unfold is_opener. now rewrite E.
Qed.

Lemma no_dash_no_match (t : str) :
  dashless t -> forall c x, In c t -> page_marker (c :: x) = None.
Proof.
  intros H c x Hin. unfold dashless in H. rewrite Forall_forall in H.
  unfold page_marker. now rewrite (H c Hin).
Qed.

(** ** A span in brackets at the end of a title *)

Lemma span_to_fits (close : N) (inner : str) :
  fits close inner = true ->
  span_to close (inner ++ [close]) = Some (S (length inner)).
Proof.
  unfold fits. rewrite negb_true_iff.
  induction inner as [|c r IH]; simpl.
  - now rewrite N.eqb_refl.
  - intros H. apply orb_false_iff in H as [Hc Hr].
    apply orb_false_iff in Hc as [H1 H2]. rewrite H1, H2, (IH Hr). reflexivity.
Qed.

(** Lines 21-22: a span in brackets that follows a plain title is taken
    away, and what is left is trimmed, whatever the brackets (of one of
    the three kinds) hold on one line. *)
Theorem clean_chapter_title_drops_bracket_span
  (t inner : str) (opener close : N) :
  closer opener = Some close ->
  fits close inner = true ->
  plain t = true ->
  clean_chapter_title (t ++ bracketed opener inner close) = strip t.
Proof.
  intros Ho Hf Ht. destruct (plain_parts t Ht) as [Hno Hd].
  unfold clean_chapter_title, bracketed.
  rewrite (sub_drops_suffix bracket_span t opener (inner ++ [close])).
  - now rewrite (sub_free _ _ (dashless_free t Hd)).
  - now apply no_opener_no_match.
  - rewrite bracket_span_cons, Ho, (span_to_fits close inner Hf).
    simpl. rewrite length_app. simpl. f_equal. lia.
Qed.

(** The example in the comment of line 21, with the title in Latin
    letters. *)
Lemma clean_chapter_title_drops_bracket_span_witness :
  closer 0x28 = Some 0x29%N
  /\ fits 0x29 (lit "2/3") = true
  /\ plain (lit "Chapter One ") = true
  /\ clean_chapter_title (lit "Chapter One (2/3)") = lit "Chapter One".
Proof.
  split; [reflexivity|]. split; [reflexivity|]. split; [reflexivity|].
  exact (clean_chapter_title_drops_bracket_span
           (lit "Chapter One ") (lit "2/3") 0x28 0x29 eq_refl eq_refl eq_refl).
Defined.

(** ** A page marker at the end of a title *)

Lemma opener_cases (c : N) :
  is_opener c = true -> c = 0x28%N \/ c = 0xFF08%N \/ c = 0x3010%N.
Proof.
  unfold is_opener, closer.
  destruct (N.eqb_spec c 0x28); [auto|].
  destruct (N.eqb_spec c 0xFF08); [auto|].
  destruct (N.eqb_spec c 0x3010); [auto|discriminate].
Qed.

Lemma digit_cases (c : N) :
  is_ascii_digit c = true -> In c [0x30; 0x31; 0x32; 0x33; 0x34; 0x35; 0x36;
                                   0x37; 0x38; 0x39]%N.
Proof.
  unfold is_ascii_digit. rewrite andb_true_iff, !N.leb_le. intros [L H].
  simpl. lia.
Qed.

Lemma unit_cases (c : N) :
  is_unit c = true -> c = 0x9875%N \/ c = 0x7AE0%N \/ c = 0x7BC0%N.
Proof.
  unfold is_unit.
  destruct (N.eqb_spec c 0x9875); [auto|].
  destruct (N.eqb_spec c 0x7AE0); [auto|].
  destruct (N.eqb_spec c 0x7BC0); [auto|discriminate].
Qed.

Lemma dash_cases (c : N) : is_dash c = true -> c = 0x2D%N \/ c = 0x2014%N.
Proof.
  unfold is_dash.
  destruct (N.eqb_spec c 0x2D); [auto|].
  destruct (N.eqb_spec c 0x2014); [auto|discriminate].
Qed.

Lemma space_not_opener (c : N) : is_space c = true -> is_opener c = false.
Proof.
  intros H. destruct (is_opener c) eqn:E; [|reflexivity].
  apply opener_cases in E. destruct E as [-> | [-> | ->]]; vm_compute in H;
    discriminate.
Qed.

Lemma dash_not_opener (c : N) : is_dash c = true -> is_opener c = false.
Proof. intros H. apply dash_cases in H. now destruct H as [-> | ->]. Qed.

Lemma digit_not_opener (c : N) : is_ascii_digit c = true -> is_opener c = false.
Proof.
  intros H. apply digit_cases in H. simpl in H.
  repeat (destruct H as [<-|H]; [reflexivity|]). contradiction.
Qed.

Lemma unit_not_opener (c : N) : is_unit c = true -> is_opener c = false.
Proof. intros H. apply unit_cases in H. now destruct H as [-> | [-> | ->]]. Qed.

Lemma digit_not_space (c : N) : is_ascii_digit c = true -> is_space c = false.
Proof.
  intros H. apply digit_cases in H. simpl in H.
  repeat (destruct H as [<-|H]; [reflexivity|]). contradiction.
Qed.

Lemma digit_not_ordinal (c : N) : is_ascii_digit c = true -> is_ordinal c = false.
Proof.
  intros H. apply digit_cases in H. simpl in H.
  repeat (destruct H as [<-|H]; [reflexivity|]). contradiction.
Qed.

Lemma unit_not_digit (c : N) : is_unit c = true -> is_ascii_digit c = false.
Proof. intros H. apply unit_cases in H. now destruct H as [-> | [-> | ->]]. Qed.

Lemma existsb_none (p q : N -> bool) (s : str) :
  (forall c, q c = true -> p c = false) ->
  forallb q s = true -> existsb p s = false.
Proof.
  intros H. induction s as [|c r IH]; simpl; [reflexivity|].
  intros Hq. apply andb_true_iff in Hq as [Hc Hr].
  now rewrite (H c Hc), (IH Hr).
Qed.

Lemma count_while_all (p : N -> bool) (a b : str) :
  forallb p a = true ->
  count_opt p b = 0 ->
  count_while p (a ++ b) = length a.
Proof.
  intros Ha Hb. induction a as [|c a IH]; simpl in *.
  - destruct b as [|x b]; [reflexivity|]. simpl in *. now destruct (p x).
  - apply andb_true_iff in Ha as [Hc Ha]. now rewrite Hc, IH.
Qed.

Lemma skipn_length_app (a b : str) : skipn (length a) (a ++ b) = b.
Proof. induction a as [|c a IH]; [reflexivity|]. exact IH. Qed.

Lemma page_mark_no_opener (dash : N) (space : str) (ordinal : bool)
  (digits : str) (unit : option N) :
  is_dash dash = true -> forallb is_space space = true ->
  forallb is_ascii_digit digits = true -> unit_ok unit = true ->
  existsb is_opener (page_mark dash space ordinal digits unit) = false.
Proof.
  intros Hd Hs Hg Hu. unfold page_mark. cbn [existsb].
  rewrite (dash_not_opener dash Hd), !existsb_app.
  rewrite (existsb_none is_opener is_space space space_not_opener Hs).
  rewrite (existsb_none is_opener is_ascii_digit digits digit_not_opener Hg).
  destruct ordinal; destruct unit as [u|]; simpl in *;
    rewrite ?(unit_not_opener _ Hu); reflexivity.
Qed.

(** The pattern of line 24 matches a page marker as a whole. *)
Lemma page_marker_page_mark (dash : N) (space : str) (ordinal : bool)
  (digits : str) (unit : option N) :
  is_dash dash = true -> forallb is_space space = true ->
  truthy digits = true -> forallb is_ascii_digit digits = true ->
  unit_ok unit = true ->
  exists tail,
    page_mark dash space ordinal digits unit = dash :: tail
    /\ page_marker (dash :: tail) = Some (S (length tail)).
Proof.
  intros Hd Hs Hne Hg Hu. unfold page_mark. eexists. split; [reflexivity|].
  destruct digits as [|g digits]; [discriminate|].
  cbn [forallb] in Hg. apply andb_true_iff in Hg as [Hg1 Hg].
  set (O := if ordinal then [0x7B2C%N] else []).
  set (U := match unit with Some u => [u] | None => [] end).
  assert (HU : count_opt is_ascii_digit U = 0 /\ count_opt is_unit U = length U).
  { subst U. destruct unit as [u|]; simpl in *; [|auto].
    now rewrite Hu, (unit_not_digit u Hu). }
  destruct HU as [HU1 HU2].
  assert (HO : count_opt is_space (O ++ (g :: digits) ++ U) = 0
               /\ count_opt is_ordinal (O ++ (g :: digits) ++ U) = length O
               /\ skipn (length O) (O ++ (g :: digits) ++ U) = (g :: digits) ++ U).
  { subst O. destruct ordinal; simpl.
    - auto.
    - now rewrite (digit_not_space g Hg1), (digit_not_ordinal g Hg1). }
  destruct HO as (HO1 & HO2 & HO3).
  unfold page_marker. rewrite Hd.
  rewrite (count_while_all is_space space _ Hs HO1), skipn_length_app.
  rewrite HO2, HO3.
  assert (HG : forallb is_ascii_digit (g :: digits) = true)
    by (simpl; now rewrite Hg1, Hg).
  rewrite (count_while_all is_ascii_digit (g :: digits) U HG HU1).
  rewrite skipn_length_app, HU2. cbn [length].
  f_equal. rewrite !length_app. cbn [length]. lia.
Qed.

(** Lines 23-24: a page marker that follows a plain title is taken away,
    and what is left is trimmed: a dash, any white space, the ordinal
    sign or not, one digit or more, a unit or not. *)
Theorem clean_chapter_title_drops_page_mark
  (t : str) (dash : N) (space : str) (ordinal : bool) (digits : str)
  (unit : option N) :
  is_dash dash = true ->
  forallb is_space space = true ->
  truthy digits = true ->
  forallb is_ascii_digit digits = true ->
  unit_ok unit = true ->
  plain t = true ->
  clean_chapter_title (t ++ page_mark dash space ordinal digits unit) = strip t.
Proof.
  intros Hd Hs Hne Hg Hu Ht. destruct (plain_parts t Ht) as [Hno Hdl].
  unfold clean_chapter_title.
  assert (F : free bracket_span (t ++ page_mark dash space ordinal digits unit)).
  { apply opener_free_no_span. rewrite existsb_app, Hno.
    now rewrite page_mark_no_opener. }
  rewrite (sub_free _ _ F).
  destruct (page_marker_page_mark dash space ordinal digits unit Hd Hs Hne Hg Hu)
    as (tail & -> & Hm).
  now rewrite (sub_drops_suffix page_marker t dash tail (no_dash_no_match t Hdl) Hm).
Qed.

(** The example in the comment of line 23, with the title in Latin
    letters: a dash, a blank, the ordinal sign, 2, the sign for page. *)
Lemma clean_chapter_title_drops_page_mark_witness :
  is_dash 0x2D = true
  /\ forallb is_space (lit " ") = true
  /\ truthy (lit "2") = true
  /\ forallb is_ascii_digit (lit "2") = true
  /\ unit_ok (Some 0x9875%N) = true
  /\ plain (lit "Chapter One ") = true
  /\ clean_chapter_title
       (lit "Chapter One - " ++ [0x7B2C; 0x32; 0x9875]%N)
     = lit "Chapter One".
Proof.
  split; [reflexivity|]. split; [reflexivity|]. split; [reflexivity|].
  split; [reflexivity|]. split; [reflexivity|]. split; [reflexivity|].
  exact (clean_chapter_title_drops_page_mark
           (lit "Chapter One ") 0x2D (lit " ") true (lit "2") (Some 0x9875%N)
           eq_refl eq_refl eq_refl eq_refl eq_refl eq_refl).
Defined.

(** ** What comes out *)

Lemma sub_from_length (m : str -> option nat) (s : str) : forall k,
  length (sub_from m k s) <= length s.
Proof.
  induction s as [|c r IH]; intros k; [simpl; lia|].
  cbn [sub_from]. destruct k as [|k].
  - destruct (m (c :: r)) as [[|j]|]; simpl;
      try (specialize (IH 0); lia). specialize (IH j). lia.
  - specialize (IH k). simpl. lia.
Qed.

Lemma strip_length (s : str) : length (strip s) <= length s.
Proof.
  destruct (strip_split s) as (a & b & E). rewrite E at 2.
  rewrite !length_app. lia.
Qed.

(** ** The normaliser only takes away *)

Lemma subsequence_refl (s : str) : subsequence s s.
Proof. induction s; now constructor. Qed.

Lemma subsequence_trans (a b c : str) :
  subsequence a b -> subsequence b c -> subsequence a c.
Proof.
  intros Hab Hbc. revert a Hab.
  induction Hbc as [|x b c Hbc IH|x b c Hbc IH]; intros a Hab.
  - exact Hab.
  - inversion Hab; subst; constructor; now apply IH.
  - constructor. now apply IH.
Qed.

Lemma subsequence_part (a s b : str) : subsequence s (a ++ s ++ b).
Proof.
  induction a as [|c a IH]; [|now constructor].
  simpl. induction s as [|c s IH]; [|now constructor].
  simpl. induction b; now constructor.
Qed.

Lemma sub_from_subsequence (m : str -> option nat) (s : str) : forall k,
  subsequence (sub_from m k s) s.
Proof.
  induction s as [|c r IH]; intros k; [constructor|].
  cbn [sub_from]. destruct k as [|k]; [|constructor; apply IH].
  destruct (m (c :: r)) as [[|j]|]; constructor; apply IH.
Qed.

Lemma strip_subsequence (s : str) : subsequence (strip s) s.
Proof.
  destruct (strip_split s) as (a & b & E). rewrite E at 2.
  apply subsequence_part.
Qed.

(** The normalised title has no white space at its ends, and the
    normaliser only takes away: what it returns is the title given with
    some of its code points taken out, the others in their order, and so
    it is never longer. *)
Theorem clean_chapter_title_trimmed_and_no_longer (s : str) :
  strip (clean_chapter_title s) = clean_chapter_title s
  /\ subsequence (clean_chapter_title s) s
  /\ length (clean_chapter_title s) <= length s.
Proof.
  unfold clean_chapter_title. split; [apply strip_idem|]. split.
  - eapply subsequence_trans; [apply strip_subsequence|].
    eapply subsequence_trans; apply sub_from_subsequence.
  - pose proof (strip_length (re_sub page_marker (re_sub bracket_span s))).
    pose proof (sub_from_length page_marker (re_sub bracket_span s) 0).
    pose proof (sub_from_length bracket_span s 0).
    unfold re_sub in *. lia.
Qed.

(** ** When normalising twice is normalising once (C5) *)

(** A pass that finds a match leaves less than it was given. *)
Lemma sub_from_shrinks (m : str -> option nat) (s : str) :
  (forall t, m t <> Some 0) ->
  free m s \/ length (sub_from m 0 s) < length s.
Proof.
  intros Hm. induction s as [|c r IH]; [now left|].
  cbn [sub_from free].
  destruct (m (c :: r)) as [[|j]|] eqn:E.
  - now apply Hm in E.
  - right. pose proof (sub_from_length m r j). simpl. lia.
  - destruct IH as [F|L]; [now left|right; simpl; lia].
Qed.

Lemma bracket_span_positive (t : str) : bracket_span t <> Some 0.
Proof.
  destruct t as [|c r]; [discriminate|]. rewrite bracket_span_cons.
  destruct (closer c); [|discriminate].
  now destruct (span_to _ r).
Qed.

Lemma page_marker_positive (t : str) : page_marker t <> Some 0.
Proof.
  destruct t as [|c r]; [discriminate|]. unfold page_marker.
  destruct (is_dash c); [|discriminate].
  now destruct (count_while is_ascii_digit _).
Qed.

(** C5, as the code has it.  Normalising twice gives what normalising once
    gives exactly when the title normalised once has nothing left to match:
    no bracket span and no page marker.  (Taking a page marker out can
    bring a dash and a number together, or an opening bracket and its
    closing one.) *)
Theorem clean_chapter_title_idempotent_iff_nothing_left (s : str) :
  clean_chapter_title (clean_chapter_title s) = clean_chapter_title s
  <-> free bracket_span (clean_chapter_title s)
      /\ free page_marker (clean_chapter_title s).
Proof.
  split.
  - set (t := clean_chapter_title s). intros E.
    assert (L : length (clean_chapter_title t) = length t) by now rewrite E.
    unfold clean_chapter_title in L.
    pose proof (strip_length (re_sub page_marker (re_sub bracket_span t))) as L1.
    pose proof (sub_from_length page_marker (re_sub bracket_span t) 0) as L2.
    pose proof (sub_from_length bracket_span t 0) as L3.
    unfold re_sub in *.
    destruct (sub_from_shrinks bracket_span t bracket_span_positive) as [Fb|Sb];
      [|lia].
    split; [exact Fb|].
    pose proof (sub_free _ _ Fb) as Eb. unfold re_sub in Eb.
    rewrite Eb in L, L1, L2.
    destruct (sub_from_shrinks page_marker t page_marker_positive) as [Fp|Sp];
      [exact Fp|lia].
  - intros [Fb Fp]. apply clean_fixed; trivial.
    unfold clean_chapter_title. apply strip_idem.
Qed.

(** The examples in the comments of lines 21 and 23, a page count in
    brackets and a page marker with the ordinal sign U+7B2C and the unit
    U+9875 behind a dash: both come out as the title alone, and normalising
    twice is normalising once. *)
Lemma clean_chapter_title_idempotent_iff_nothing_left_witness :
  clean_chapter_title (first_chapter ++ lit " (2/3)") = first_chapter
  /\ clean_chapter_title (first_chapter ++ lit " - " ++ [0x7B2C; 0x32; 0x9875]%N)
     = first_chapter
  /\ clean_chapter_title (clean_chapter_title (first_chapter ++ lit " (2/3)"))
     = clean_chapter_title (first_chapter ++ lit " (2/3)")
  /\ clean_chapter_title
       (clean_chapter_title
          (first_chapter ++ lit " - " ++ [0x7B2C; 0x32; 0x9875]%N))
     = clean_chapter_title
         (first_chapter ++ lit " - " ++ [0x7B2C; 0x32; 0x9875]%N).
Proof.
  split; [vm_compute; reflexivity|]. split; [vm_compute; reflexivity|].
  split;
    apply clean_chapter_title_idempotent_iff_nothing_left;
    vm_compute; repeat (split; [reflexivity|]); repeat split.
Defined.

End TitleMore.

(* ================================================================== *)
(** * What the extractors hand back *)
(* ================================================================== *)

Module ExtractMore.
Import PyStr Bs4 Extract ExtractSpec StrFacts.

(** ** Trimmed strings *)

Lemma lstrip_length (s : str) : length (lstrip s) <= length s.
Proof.
  destruct (lstrip_split s) as [a E]. rewrite E at 2. rewrite length_app. lia.
Qed.

Lemma rstrip_length (s : str) : length (rstrip s) <= length s.
Proof.
  destruct (rstrip_split s) as [b E]. rewrite E at 2. rewrite length_app. lia.
Qed.

Lemma strip_fixed_parts (s : str) :
  strip s = s -> lstrip s = s /\ rstrip s = s.
Proof.
  unfold strip. intros H.
  assert (L : lstrip s = s).
  { destruct (lstrip_split s) as [a E].
    pose proof (rstrip_length (lstrip s)) as R. rewrite H in R.
    assert (La : length a = 0).
    { apply (f_equal (@length N)) in E. rewrite length_app in E. lia. }
    destruct a; [|discriminate]. now rewrite E at 2. }
  split; [exact L|]. now rewrite L in H.
Qed.

Lemma lstrip_keeps (a b : str) :
  a <> [] -> lstrip a = a -> lstrip (a ++ b) = a ++ b.
Proof.
  destruct a as [|c a]; [contradiction|]. intros _ H.
  pose proof (lstrip_head _ _ _ H) as Hc. simpl. now rewrite Hc.
Qed.

Lemma rstrip_keeps (a b : str) :
  b <> [] -> rstrip b = b -> rstrip (a ++ b) = a ++ b.
Proof.
  unfold rstrip. intros Hb H.
  assert (Hr : lstrip (rev b) = rev b).
  { rewrite <- (rev_involutive (lstrip (rev b))), H. reflexivity. }
  rewrite rev_app_distr, lstrip_keeps; trivial.
  - now rewrite <- rev_app_distr, rev_involutive.
  - intros E. apply Hb. now rewrite <- (rev_involutive b), E.
Qed.

Lemma join_cons (sep p q : str) (rest : list str) :
  join sep (p :: q :: rest) = p ++ sep ++ join sep (q :: rest).
Proof. reflexivity. Qed.

Lemma join_not_empty (sep q : str) (rest : list str) :
  q <> [] -> join sep (q :: rest) <> [].
Proof.
  intros Hq. destruct rest as [|r rest]; [exact Hq|].
  rewrite join_cons. destruct q; [contradiction|discriminate].
Qed.

(** Parts that are trimmed and not empty, joined by anything, make a
    trimmed string. *)
Lemma join_trimmed (sep : str) (parts : list str) :
  Forall (fun p => p <> [] /\ strip p = p) parts ->
  strip (join sep parts) = join sep parts.
Proof.
  intros H.
  assert (G : lstrip (join sep parts) = join sep parts
              /\ rstrip (join sep parts) = join sep parts).
  { induction H as [|p rest [Hne Hp] Hrest IH]; [now split|].
    destruct (strip_fixed_parts p Hp) as [Lp Rp].
    destruct rest as [|q rest]; [now split|].
    destruct IH as [_ IHr]. rewrite join_cons. split.
    - now apply lstrip_keeps.
    - rewrite app_assoc. apply rstrip_keeps; [|exact IHr].
      apply join_not_empty. now inversion Hrest as [|? ? [Hq _] _]. }
  unfold strip. destruct G as [-> ->]. reflexivity.
Qed.

Lemma get_text_trimmed (sep : str) (n : node) :
  strip (get_text sep n) = get_text sep n.
Proof.
  unfold get_text. apply join_trimmed.
  apply Forall_forall. intros p Hp. apply filter_In in Hp as [Hin Ht].
  apply in_map_iff in Hin as (q & <- & _). split.
  - intros E. now rewrite E in Ht.
  - apply strip_idem.
Qed.

(** ** The content and the page *)

(** The content that is found has no white space at its ends; and a page
    in which no content is found is handed back as it was. *)
Theorem extract_main_content_trimmed_or_untouched (soup : BeautifulSoup) :
  match fst (extract_main_content soup) with
  | Some text => strip text = text
  | None => snd (extract_main_content soup) = soup
  end.
Proof.
  unfold extract_main_content.
  induction selectors as [|sel rest IH]; [reflexivity|].
  cbn [first_content].
  destruct (find (tag_matches sel) soup) as [[root put]|]; [|exact IH].
  destruct (100 <? length (get_text [] root)); [|exact IH].
  simpl. apply get_text_trimmed.
Qed.

(** The title that is found has no white space at its ends. *)
Theorem extract_chapter_title_trimmed (soup : BeautifulSoup) :
  strip (extract_chapter_title soup) = extract_chapter_title soup.
Proof.
  unfold extract_chapter_title, Title.clean_chapter_title.
  destruct (find (tag_matches (by_name "h1")) soup) as [[h1 put1]|];
    [destruct (truthy (get_text [] h1)); [apply strip_idem|]|];
    destruct (find (tag_matches (by_name "title")) soup) as [[t put]|];
    try apply strip_idem; reflexivity.
Qed.

End ExtractMore.
